(** * DExTer: the step trace ([dex/dextIR/DextIR.py]) and the debugger
      registry ([dex/debugger/Debuggers.py])

    A shallow embedding of the two modules.  Python objects become records,
    [None]-able attributes become [option]s, dictionaries become [gmap]s,
    exceptions become the left summand of a result type, and the
    attributes that memoise discovery live in an explicit process state. *)

From Stdlib Require Import ZArith Ascii.
From stdpp Require Import base decidable option list strings pretty gmap sorting.

Open Scope string_scope.
Open Scope Z_scope.

(** ** The step trace: [dex/dextIR/DextIR.py] *)

Module DextIR.

(** [StepKind] of [dex/dextIR/StepIR.py], as imported on line 30. *)
Inductive StepKind : Set :=
  | FUNC | FUNC_EXTERNAL | FUNC_UNKNOWN
  | SAME | FORWARD | BACKWARD
  | UNKNOWN.

(** A source location: every attribute may be [None]. *)
Record LocIR : Set := mkLocIR {
  path : option string;
  lineno : option Z;
  column : option Z
}.

(** One debugger stop.  [step_kind] is [None] for as long as nobody has
    assigned the attribute. *)
Record StepIR : Set := mkStepIR {
  current_function : option string;
  current_location : LocIR;
  step_kind : option StepKind
}.

Record CommandIR : Set := mkCommandIR {
  loc : LocIR;
  raw_text : string
}.

(** [CommandListIR] is a list of commands; the [OrderedDict] of command
    lists keeps the order in which its keys were first inserted. *)
Definition CommandListIR : Set := list CommandIR.
Definition Commands : Set := list (string * CommandListIR).

(** [BuilderIR] and [DebuggerIR] are only stored by the trace. *)
Inductive BuilderIR : Set := mkBuilderIR (builder_repr : string).
Inductive DebuggerIR : Set := mkDebuggerIR (debugger_repr : string).

Record t : Set := mkDextIR {
  dexter_version : string;
  executable_path : string;
  source_paths : list string;
  builder : option BuilderIR;
  debugger : option DebuggerIR;
  commands : option Commands;
  steps : list StepIR
}.

(** [DextIR.__init__]: [builder], [debugger] and [commands] default to
    [None] and the step list starts empty. *)
Definition init (dexter_version executable_path : string)
    (source_paths : list string) (builder : option BuilderIR)
    (debugger : option DebuggerIR) (commands : option Commands) : t :=
  mkDextIR dexter_version executable_path source_paths
           builder debugger commands [].

Definition num_steps (self : t) : nat := length (steps self).

Definition set_step_kind (k : StepKind) (step : StepIR) : StepIR :=
  mkStepIR (current_function step) (current_location step) (Some k).

Definition set_steps (l : list StepIR) (self : t) : t :=
  mkDextIR (dexter_version self) (executable_path self) (source_paths self)
           (builder self) (debugger self) (commands self) l.

Definition set_commands (c : option Commands) (self : t) : t :=
  mkDextIR (dexter_version self) (executable_path self) (source_paths self)
           (builder self) (debugger self) c (steps self).

(** [x in source_paths] for an attribute that may be [None]: a list of
    strings never contains [None]. *)
Definition path_in (p : option string) (source_paths : list string) : bool :=
  match p with
  | Some s => bool_decide (s ∈ source_paths)
  | None => false
  end.

Definition _step_kind_func (source_paths : list string) (step : StepIR)
    : StepKind :=
  if path_in (path (current_location step)) source_paths then FUNC
  else if bool_decide (path (current_location step) = None) then FUNC_UNKNOWN
  else FUNC_EXTERNAL.

(** The comparison operators [==], [>] and [<] of [LocIR].  The class
    [dex/dextIR/LocIR.py] is not part of the two modules embedded here, so
    [new_step] is written against this interface. *)
Class LocCompare := {
  loc_eq : LocIR → LocIR → bool;
  loc_gt : LocIR → LocIR → bool;
  loc_lt : LocIR → LocIR → bool
}.

(** What makes [>] and [<] strict: at most one of the three comparisons
    holds of a pair of locations. *)
Class LocStrict `{LocCompare} := {
  loc_gt_not_eq : ∀ a b, loc_gt a b = true → loc_eq a b = false;
  loc_lt_not_eq : ∀ a b, loc_lt a b = true → loc_eq a b = false;
  loc_lt_not_gt : ∀ a b, loc_lt a b = true → loc_gt a b = false
}.

(** [new_step]: the step is classified against [self.steps[-1]], stored at
    the end of the list and returned.  The chain of [elif]s on the
    locations has no final [else]: when none of the three comparisons
    holds the step is stored as it came. *)
Definition new_step `{LocCompare} (self : t) (step : StepIR) : StepIR * t :=
  let step' :=
    match current_function step with
    | None => set_step_kind UNKNOWN step
    | Some _ =>
        match last (steps self) with
        | None => set_step_kind (_step_kind_func (source_paths self) step) step
        | Some prev_step =>
            if bool_decide (current_function prev_step = None) then
              set_step_kind UNKNOWN step
            else if bool_decide (current_function prev_step
                                 ≠ current_function step) then
              set_step_kind (_step_kind_func (source_paths self) step) step
            else if loc_eq (current_location prev_step)
                           (current_location step) then
              set_step_kind SAME step
            else if loc_gt (current_location prev_step)
                           (current_location step) then
              set_step_kind BACKWARD step
            else if loc_lt (current_location prev_step)
                           (current_location step) then
              set_step_kind FORWARD step
            else step
        end
    end in
  (step', set_steps (steps self ++ [step']) self).

Definition clear_steps (self : t) : t := set_steps [] self.

(** Appending a sequence of steps, one [new_step] call after the other. *)
Definition new_steps `{LocCompare} (self : t) (l : list StepIR) : t :=
  foldl (λ ir step, (new_step ir step).2) self l.

(** Modelled from the spec: the order on an optional line or column
    number, which [dex/dextIR/LocIR.py] (missing) would define.  Section 3
    speaks of a "total order defined over (line, column)"; an absent number
    comes before every number. *)
Definition opt_lt (a b : option Z) : bool :=
  match a, b with
  | None, None => false
  | None, Some _ => true
  | Some _, None => false
  | Some x, Some y => bool_decide (x < y)
  end.

(** Modelled from the spec: the order of [LocIR] ([dex/dextIR/LocIR.py] is
    missing).  Section 3: "Total order defined over (line, column) when two
    locations are compared", lines first. *)
Definition line_column_lt (a b : LocIR) : bool :=
  opt_lt (lineno a) (lineno b)
  || (bool_decide (lineno a = lineno b) && opt_lt (column a) (column b)).

#[export] Instance LocIR_eq_dec : EqDecision LocIR.
Proof. solve_decision. Defined.

#[export] Instance StepKind_eq_dec : EqDecision StepKind.
Proof. solve_decision. Defined.

(** Modelled from the spec: the comparison operators of [LocIR]
    ([dex/dextIR/LocIR.py] is missing).  Section 3: "Equality requires
    identical path, line, and column"; [>] and [<] follow the order over
    (line, column). *)
Definition spec_order : LocCompare := {|
  loc_eq := λ a b, bool_decide (a = b);
  loc_gt := λ a b, line_column_lt b a;
  loc_lt := λ a b, line_column_lt a b
|}.

(** A stop in function [fn] at line [line] of file [p], as a caller hands
    it to [new_step]: no column, [step_kind] not yet assigned. *)
Definition stop (fn : option string) (p : string) (line : Z) : StepIR :=
  mkStepIR fn (mkLocIR (Some p) (Some line) None) None.

(** The six steps of the scenario of section 8. *)
Definition scenario_steps : list StepIR :=
  [stop (Some "main") "file.c" 10;
   stop (Some "main") "file.c" 10;
   stop (Some "main") "file.c" 11;
   stop (Some "main") "file.c" 9;
   stop (Some "helper") "file.c" 20;
   stop None "file.c" 21].

End DextIR.

(** ** Python values used by both modules *)

Module Py.

(** A [str] is a sequence of code points below 256.  The values that the
    coordinator formats with [{}] are [None], integers and strings. *)
Inductive value : Set :=
  | PyNone
  | PyInt (z : Z)
  | PyStr (s : string).

(** What [str.format] prints for [{}]: the [str()] of the value. *)
Definition str (v : value) : string :=
  match v with
  | PyNone => "None"
  | PyInt z => pretty z
  | PyStr s => s
  end.

(** The payload of [dex.utils.Exceptions.CommandParseError]. *)
Record CommandParseError : Set := mkCommandParseError {
  filename : value;
  cpe_lineno : value;
  info : value;
  src : value;
  caret : value
}.

Inductive exn : Set :=
  | ImportError
  | AttributeError
  | IndexError
  | ValueError
  | KeyError (key : string)
  | AssertionError (args : list string)
  | CommandParseError_ (e : CommandParseError)
  | CalledProcessError (returncode : Z)
  | DebuggerException (msg : string)
  | DebuggerException_from (e : exn)
  | Raised (what : string).

Definition result (A : Type) : Type := exn + A.

Definition startswith (s p : string) : bool := String.prefix p s.

Definition endswith (s p : string) : bool :=
  String.prefix (String.rev p) (String.rev s).

Fixpoint rfind_dot (s : string) : option nat :=
  match s with
  | EmptyString => None
  | String c s' =>
      match rfind_dot s' with
      | Some i => Some (S i)
      | None => if Ascii.eqb c "." then Some 0%nat else None
      end
  end.

Fixpoint all_dots (s : string) : bool :=
  match s with
  | EmptyString => true
  | String c s' => Ascii.eqb c "." && all_dots s'
  end.

(** [os.path.splitext(f)[0]] for a file name without directory part: the
    name up to its last dot, unless only dots come before that dot. *)
Definition splitext_root (f : string) : string :=
  match rfind_dot f with
  | Some i =>
      let root := String.substring 0 i f in
      if all_dots root then f else root
  | None => f
  end.

(** Line boundaries of [str.splitlines] among the code points below 256. *)
Definition is_linebreak (c : ascii) : bool :=
  let n := N_of_ascii c in
  bool_decide (n ∈ [10; 11; 12; 13; 28; 29; 30; 133]%N).

(** [cur] holds the characters of the line being read; a carriage return
    followed by a line feed is one boundary, and no empty line is reported
    after the last boundary. *)
Fixpoint splitlines_go (cur s : string) : list string :=
  match s with
  | EmptyString => if bool_decide (cur = "") then [] else [cur]
  | String c s' =>
      if Ascii.eqb c "013" then
        match s' with
        | String "010" s'' => cur :: splitlines_go "" s''
        | _ => cur :: splitlines_go "" s'
        end
      else if is_linebreak c then cur :: splitlines_go "" s'
      else splitlines_go (cur +:+ String c "") s'
  end.

Definition splitlines (s : string) : list string := splitlines_go "" s.

(** White space of [str.rstrip()] among the code points below 256. *)
Definition is_space (c : ascii) : bool :=
  let n := N_of_ascii c in
  bool_decide (n ∈ [9; 10; 11; 12; 13; 28; 29; 30; 31; 32; 133; 160]%N).

Fixpoint lstrip (s : string) : string :=
  match s with
  | String c s' => if is_space c then lstrip s' else s
  | EmptyString => s
  end.

Definition rstrip (s : string) : string := String.rev (lstrip (String.rev s)).

Fixpoint spaces (n : nat) : string :=
  match n with
  | O => ""
  | S n' => String " " (spaces n')
  end.

(** ['{name: <N}'.format(name=s)]: [s] padded with spaces on the right up
    to [n] characters. *)
Definition ljust (n : nat) (s : string) : string :=
  s +:+ spaces (n - String.length s).

(** [sep.join(l)]. *)
Fixpoint join (sep : string) (l : list string) : string :=
  match l with
  | [] => ""
  | [s] => s
  | s :: l' => s +:+ sep +:+ join sep l'
  end.

(** [max(l)] raises [ValueError] on an empty sequence. *)
Definition max_ (l : list nat) : result nat :=
  match l with
  | [] => inl ValueError
  | x :: l' => inr (foldl Nat.max x l')
  end.

(** The order of [sorted] on strings. *)
Definition str_le (a b : string) : Prop := String.leb a b = true.

#[export] Instance str_le_dec : RelDecision str_le.
Proof. intros a b. unfold str_le. apply _. Defined.

Definition sorted (l : list string) : list string := merge_sort str_le l.

Definition newline : string := String "010" "".

End Py.

(** ** The registry and the coordinator: [dex/debugger/Debuggers.py] *)

Module Debuggers.
Import Py.

(** *** The run context *)

Record Options := mkOptions {
  source_files : list string;
  executable : string;
  opt_verbose : bool
}.

Record Context := mkContext {
  options : Options;
  version_tag : string;
  working_directory : string
}.

(** *** Backends *)

(** A constructed backend, seen through the attributes the listing reads.
    [version] and [loading_error] are [None] when reading the attribute and
    calling [splitlines] on it raises [AttributeError] (no such attribute,
    or its value is [None]); [loading_error_trace] is [None] when the
    attribute is missing or holds [None]. *)
Record DebuggerBase := mkDebugger {
  name : string;
  is_available : bool;
  version : option string;
  loading_error : option string;
  loading_error_trace : option (list string)
}.

(** A class object found in a module: its identity, its [__name__],
    whether [issubclass(c, DebuggerBase)] holds, what [get_option_name]
    answers ([None] when it raises [NotImplementedError]) and what calling
    the class does. *)
Record PyClass := mkClass {
  cls_id : nat;
  cls_name : string;
  is_debugger : bool;
  get_option_name : option string;
  construct : Context → option DextIR.t → result DebuggerBase
}.

(** *** The process: dictionaries live in a heap and are known by their
    address; the two memoising attributes hold such an address once set. *)

Inductive ScanEvent :=
  | Walk
  | LoadModule (dir_ m : string).

Record Process := mkProcess {
  heap : list (gmap string PyClass);
  gpd_cached : option nat;
  cls_potential_debuggers : option nat;
  scan_log : list ScanEvent
}.

(** What the file system and the import machinery answer: the triples of
    [os.walk] over the package directory (directory and file names) and,
    for a module name in a directory, either an exception or the classes
    that [inspect.getmembers(module, inspect.isclass)] lists. *)
Record Sources := mkSources {
  os_walk : list (string * list string);
  load_module : string → string → result (list PyClass)
}.

(** Computations that read and write the process and may raise. *)
Definition M (A : Type) : Type := Process → result A * Process.

#[export] Instance M_ret : MRet M := λ A x p, (inr x, p).
#[export] Instance M_bind : MBind M := λ A B f m p,
  match m p with
  | (inl e, p') => (inl e, p')
  | (inr x, p') => f x p'
  end.

Definition raise {A} (e : exn) : M A := λ p, (inl e, p).
Definition lift {A} (r : result A) : M A := λ p, (r, p).
Definition get : M Process := λ p, (inr p, p).
Definition put (p : Process) : M unit := λ _, (inr (), p).

Fixpoint for_ {A} (l : list A) (body : A → M unit) : M unit :=
  match l with
  | [] => mret ()
  | x :: l' => body x ;; for_ l' body
  end.

Definition log (ev : ScanEvent) : M unit :=
  p ← get;
  put (mkProcess (heap p) (gpd_cached p) (cls_potential_debuggers p)
                 (scan_log p ++ [ev])).

(** A fresh empty dictionary. *)
Definition new_dict : M nat :=
  p ← get;
  put (mkProcess (heap p ++ [∅]) (gpd_cached p) (cls_potential_debuggers p)
                 (scan_log p));;
  mret (length (heap p)).

Definition read_dict (a : nat) : M (gmap string PyClass) :=
  p ← get;
  match heap p !! a with
  | Some d => mret d
  | None => raise (Raised "dangling reference")
  end.

Definition write_dict (a : nat) (d : gmap string PyClass) : M unit :=
  p ← get;
  put (mkProcess (<[a := d]> (heap p)) (gpd_cached p)
                 (cls_potential_debuggers p) (scan_log p)).

Definition set_gpd_cached (a : nat) : M unit :=
  p ← get;
  put (mkProcess (heap p) (Some a) (cls_potential_debuggers p) (scan_log p)).

Definition set_cls_potential_debuggers (a : nat) : M unit :=
  p ← get;
  put (mkProcess (heap p) (gpd_cached p) (Some a) (scan_log p)).

(** *** Discovery *)

Definition potential_modules (files : list string) : list string :=
  splitext_root <$>
    filter (λ f, endswith f ".py" && negb (startswith f "__") = true) files.

(** Lines 67 to 79: one class of one module. *)
Definition register (cached : nat) (c : PyClass) : M unit :=
  if is_debugger c then
    match get_option_name c with
    | None => mret ()
    | Some key =>
        d ← read_dict cached;
        match d !! key with
        | Some c0 =>
            if bool_decide (cls_name c0 = cls_name c) then mret ()
            else raise (AssertionError [key; cls_name c0; cls_name c])
        | None => write_dict cached (<[key := c]> d)
        end
    end
  else mret ().

Definition scan_module (src : Sources) (cached : nat) (dir_ m : string)
    : M unit :=
  log (LoadModule dir_ m);;
  match load_module src dir_ m with
  | inl ImportError => mret ()
  | inl e => raise e
  | inr members => for_ members (register cached)
  end.

Definition _get_potential_debuggers (src : Sources) : M nat :=
  p ← get;
  match gpd_cached p with
  | Some cached => mret cached
  | None =>
      cached ← new_dict;
      set_gpd_cached cached;;
      log Walk;;
      for_ (os_walk src) (λ '(dir_, files),
        for_ (potential_modules files) (scan_module src cached dir_));;
      mret cached
  end.

(** [Debuggers.potential_debuggers], a class method. *)
Definition potential_debuggers (src : Sources) : M nat :=
  p ← get;
  match cls_potential_debuggers p with
  | Some a => mret a
  | None =>
      a ← _get_potential_debuggers src;
      set_cls_potential_debuggers a;;
      mret a
  end.

(** [Debuggers.load]: the timer around the call only measures. *)
Definition load (src : Sources) (context : Context) (key : string)
    (step_collection : option DextIR.t) : M DebuggerBase :=
  a ← potential_debuggers src;
  d ← read_dict a;
  match d !! key with
  | Some c => lift (construct c context step_collection)
  | None => raise (KeyError key)
  end.

(** The two ways to ask for the discovered backends, and a client that
    asks again and again, possibly while the package directory changes. *)
Inductive Accessor : Set :=
  | ViaFunction
  | ViaClassMethod.

Definition discover (src : Sources) (acc : Accessor) : M nat :=
  match acc with
  | ViaFunction => _get_potential_debuggers src
  | ViaClassMethod => potential_debuggers src
  end.

Fixpoint discover_again (calls : list (Sources * Accessor)) (p : Process)
    : list (result nat) * Process :=
  match calls with
  | [] => ([], p)
  | (src, acc) :: calls' =>
      let '(r, p') := discover src acc p in
      let '(rs, p'') := discover_again calls' p' in
      (r :: rs, p'')
  end.

(** *** Listing *)

(** The class [LoadedDebugger] made afresh for every key.  [ld_version],
    [error] and [error_trace] are [None] while the attribute has not been
    assigned; [error_trace] may also be assigned [None]. *)
Record LoadedDebugger := mkLoaded {
  option_name : string;
  full_name : string;
  ld_is_available : bool;
  ld_version : option (list string);
  error : option (list string);
  error_trace : option (option (list string))
}.

Definition snapshot (key : string) (debugger : DebuggerBase) : LoadedDebugger :=
  let full := "[" +:+ name debugger +:+ "]" in
  if is_available debugger then
    mkLoaded key full true
      (Some (match version debugger with
             | Some v => splitlines v
             | None => [""]
             end))
      None None
  else
    mkLoaded key full false None
      (Some (match loading_error debugger with
             | Some e => splitlines e
             | None => [""]
             end))
      (Some (loading_error_trace debugger)).

Fixpoint mapM {A B} (f : A → M B) (l : list A) : M (list B) :=
  match l with
  | [] => mret []
  | x :: l' => y ← f x; ys ← mapM f l'; mret (y :: ys)
  end.

(** Iterating over a dictionary yields its keys. *)
Definition keys (d : gmap string PyClass) : list string := (map_to_list d).*1.

Definition _populate_debugger_cache (src : Sources) (context : Context)
    : M (list LoadedDebugger) :=
  a ← potential_debuggers src;
  d ← read_dict a;
  mapM (λ key, debugger ← load src context key None;
               mret (snapshot key debugger))
       (sorted (keys d)).

(** Reading an attribute of [LoadedDebugger] that was never assigned. *)
Definition attr {A} (o : option A) : M A :=
  match o with
  | Some x => mret x
  | None => raise AttributeError
  end.

(** [l[0]]. *)
Definition first (l : list string) : M string :=
  match l with
  | x :: _ => mret x
  | [] => raise IndexError
  end.

Definition indent_lines (verbose_info : list string) : string :=
  join newline ((λ l, "        " +:+ rstrip l) <$> verbose_info) +:+ newline.

(** The body of the loop of [list] for one entry [d]. *)
Definition list_entry (verbose : bool) (max_o_len max_n_len : nat)
    (d : LoadedDebugger) : M string :=
  let option_name := ljust max_o_len (option_name d) in
  let full_name := ljust max_n_len (full_name d) in
  '(name, available, info) ←
    (if ld_is_available d then
       v ← attr (ld_version d);
       v0 ← first v;
       mret ("<b>" +:+ option_name +:+ " " +:+ full_name +:+ "</>",
             "<g>YES</>", "<b>(" +:+ v0 +:+ ")</>")
     else
       e ← attr (error d);
       e0 ← first e;
       mret ("<y>" +:+ option_name +:+ " " +:+ full_name +:+ "</>",
             "<r>NO</> ", "<y>(" +:+ e0 +:+ ")</>"));
  let msg := name +:+ " " +:+ available +:+ " " +:+ info in
  if verbose then
    verbose_info ←
      (if ld_is_available d then
         v ← attr (ld_version d);
         mret (match tail v with
               | [] => None
               | _ :: _ => Some (v ++ [newline])%list
               end)
       else attr (error_trace d));
    match verbose_info with
    | Some (l :: ls) =>
        mret (msg +:+ newline +:+ newline +:+ indent_lines (l :: ls))
    | _ => mret msg
    end
  else mret msg.

(** [Debuggers.list]: the result is the text handed to [context.o.auto]. *)
Definition list_ (src : Sources) (context : Context) : M string :=
  debuggers ← _populate_debugger_cache src context;
  max_o_len ← lift (max_ ((λ d, String.length (option_name d)) <$> debuggers));
  max_n_len ← lift (max_ ((λ d, String.length (full_name d)) <$> debuggers));
  msgs ← mapM (list_entry (opt_verbose (options context)) max_o_len max_n_len)
              debuggers;
  mret (newline +:+ join newline msgs +:+ newline +:+ newline).

(** *** The coordinator *)

(** A command as [find_all_commands] reports it. *)
Record Command : Set := mkCommand {
  cmd_path : option string;
  cmd_lineno : option Z;
  cmd_raw_text : string
}.

(** Everything outside the module that [get_debugger_steps] consults: the
    command parser, the two serialisers and the reader of the trace, the
    names handed out for temporary files, the interpreter's own paths, the
    file system and the child process. *)
Record World := mkWorld {
  find_all_commands : list string → result (list (string * list Command));
  as_json : DextIR.t → string;
  pickle_dump : Options → string;
  temp_name : nat → string;
  sys_argv0 : string;
  sys_executable : string;
  isfile : string → bool;
  get_root_directory : string;
  path_join : list string → string;
  Timer_indent : Z;
  check_call : list string → Z;
  read_after_run : string → string;
  importDextIR : string → DextIR.t
}.

Inductive Effect : Set :=
  | WriteTemp (path content : string)
  | MakeTemp (path : string)
  | RemoveTemp (path : string)
  | Spawn (args : list string)
  | ReadFile (path : string).

(** [command_infos[command_type] = CommandListIR()] for a new key, and
    [command_infos[command_type].append(c)]. *)
Definition od_contains (key : string) (od : DextIR.Commands) : bool :=
  bool_decide (key ∈ od.*1).

Definition od_append (key : string) (c : DextIR.CommandIR)
    (od : DextIR.Commands) : DextIR.Commands :=
  (λ '(k, l), if bool_decide (k = key) then (k, (l ++ [c])%list) else (k, l))
    <$> od.

Definition _get_command_infos (w : World) (context : Context)
    : result DextIR.Commands :=
  match find_all_commands w (source_files (options context)) with
  | inl e => inl e
  | inr commands =>
      inr (foldl (λ command_infos '(command_type, cmds),
             foldl (λ command_infos command,
                      let command_infos :=
                        if od_contains command_type command_infos
                        then command_infos
                        else (command_infos ++ [(command_type, [])])%list in
                      let loc := DextIR.mkLocIR (cmd_path command)
                                   (cmd_lineno command) None in
                      od_append command_type
                        (DextIR.mkCommandIR loc (cmd_raw_text command))
                        command_infos)
                   command_infos cmds)
             [] commands)
  end.

Definition empty_debugger_steps (context : Context) : DextIR.t :=
  DextIR.init (version_tag context) (executable (options context))
              (source_files (options context)) None None None.

Definition parser_error (e : CommandParseError) : string :=
  "parser error: <d>" +:+ str (filename e) +:+ "(" +:+ str (cpe_lineno e)
  +:+ "):</> " +:+ str (info e) +:+ newline +:+ str (src e) +:+ newline
  +:+ str (caret e) +:+ newline.

Definition get_debugger_steps (w : World) (context : Context)
    : result DextIR.t * list Effect :=
  let step_collection := empty_debugger_steps context in
  match _get_command_infos w context with
  | inl (CommandParseError_ e) => (inl (DebuggerException (parser_error e)), [])
  | inl e => (inl e, [])
  | inr command_infos =>
      let step_collection :=
        DextIR.set_commands (Some command_infos) step_collection in
      let json_path := temp_name w 0 in
      let pickle_path := temp_name w 1 in
      let written :=
        [WriteTemp json_path (as_json w step_collection);
         WriteTemp pickle_path (pickle_dump w (options context))] in
      let dexter_py :=
        if isfile w (sys_argv0 w) then sys_argv0 w
        else path_join w [get_root_directory w; ".."; sys_argv0 w] in
      if negb (isfile w dexter_py) then (inl (AssertionError []), written)
      else
        let args :=
          [sys_executable w; dexter_py; "run-debugger-internal-"; json_path;
           pickle_path; "--working-directory"; working_directory context;
           "--unittest=off"; "--lint=off";
           "--indent-timer-level=" +:+ pretty (Timer_indent w + 2)] in
        let spawned :=
          (written ++ [MakeTemp (temp_name w 2); Spawn args;
                       RemoveTemp (temp_name w 2)])%list in
        let returncode := check_call w args in
        if bool_decide (returncode ≠ 0) then
          (inl (DebuggerException_from (CalledProcessError returncode)),
           spawned)
        else
          (inr (importDextIR w (read_after_run w json_path)),
           (spawned ++ [ReadFile json_path])%list)
  end.

End Debuggers.

(** ** Concrete inputs *)

Module Examples.
Import Py Debuggers.

Definition ex_context : Context :=
  mkContext (mkOptions ["test.cpp"] "a.out" true) "1.0" "/tmp/dexter".

(** A process in which nothing has been discovered yet. *)
Definition fresh : Process := mkProcess [] None None [].

(** The abstract base class: a subclass of itself without option name. *)
Definition base_class : PyClass :=
  mkClass 0 "DebuggerBase" true None
          (λ _ _, inl (Raised "TypeError: abstract class")).

(** A backend that loads. *)
Definition lldb_class : PyClass :=
  mkClass 1 "LLDB" true (Some "lldb")
          (λ _ _, inr (mkDebugger "lldb" true (Some "lldb version 6.0.0")
                                  None None)).

(** A backend that constructs but reports itself unavailable. *)
Definition vs2015_class : PyClass :=
  mkClass 2 "VisualStudio2015" true (Some "vs2015")
          (λ _ _, inr (mkDebugger "Visual Studio 2015" false None
                         (Some "unable to load Visual Studio")
                         (Some ["Traceback (most recent call last):";
                                "ImportError: No module named win32com"]))).

(** A backend whose constructor raises. *)
Definition gdb_class : PyClass :=
  mkClass 3 "GDB" true (Some "gdb")
          (λ _ _, inl (Raised "OSError: gdb not found")).

(** Another implementation, in another module, that is also called
    [LLDB] and also answers to the key [lldb]. *)
Definition lldb_twin_class : PyClass :=
  mkClass 4 "LLDB" true (Some "lldb")
          (λ _ _, inr (mkDebugger "lldb (legacy)" false None
                                  (Some "legacy bindings") None)).

(** An implementation under another class name for the key [lldb]. *)
Definition lldb_next_class : PyClass :=
  mkClass 5 "LLDBNext" true (Some "lldb")
          (λ _ _, inr (mkDebugger "lldb-next" true (Some "lldb version 7")
                                  None None)).

(** A package directory with one sub-directory per listed module. *)
Definition package (mods : list (string * list PyClass)) : Sources :=
  mkSources
    (("dex/debugger", ["__init__.py"; "Debuggers.py"; "README.md"])
     :: ((λ '(m, _), ("dex/debugger/" +:+ m, ["__init__.py"; m +:+ ".py"]))
           <$> mods))
    (λ dir_ m,
       match list_find (λ '(m', _), "dex/debugger/" +:+ m' = dir_ ∧ m' = m)
                       mods with
       | Some (_, (_, members)) => inr members
       | None => inl ImportError
       end).

Definition working_sources : Sources :=
  package [("VisualStudio2015", [base_class; vs2015_class]);
           ("LLDB", [base_class; lldb_class])].

Definition broken_sources : Sources :=
  package [("LLDB", [base_class; lldb_class]);
           ("GDB", [base_class; gdb_class])].

Definition twin_sources : Sources :=
  package [("LLDB", [base_class; lldb_class]);
           ("LLDBLegacy", [base_class; lldb_twin_class])].

Definition clash_sources : Sources :=
  package [("LLDB", [base_class; lldb_class]);
           ("LLDBNext", [base_class; lldb_next_class])].

(** A parse failure at line 12 of [test.cpp]. *)
Definition ex_parse_error : CommandParseError :=
  mkCommandParseError (PyStr "test.cpp") (PyInt 12)
    (PyStr "expected closing parenthesis") (PyStr "// DexWatch('a'")
    (PyStr "                ^").

(** A world whose command parser fails. *)
Definition failing_world : World :=
  mkWorld (λ _, inl (CommandParseError_ ex_parse_error))
          (λ _, "{}") (λ _, "") (λ n, "/tmp/dexter/tmp" +:+ pretty n)
          "dexter.py" "python" (λ _, true) "/opt/dexter/dex"
          (join "/") 0 (λ _, 0)
          (λ _, "{}") (λ _, DextIR.init "1.0" "a.out" [] None None None).

End Examples.

(** ** Predicates of the statements about the registry *)

Module Registry.
Import Py Debuggers.

(** What a computation may do to the process: allocate and fill
    dictionaries and extend the log, but not touch the two memoising
    attributes. *)
Definition keeps_attrs (p p' : Process) : Prop :=
  gpd_cached p' = gpd_cached p
  ∧ cls_potential_debuggers p' = cls_potential_debuggers p.

(** The state of the two attributes once discovery has run. *)
Definition memoized (a : nat) (p : Process) : Prop :=
  gpd_cached p = Some a
  ∧ (cls_potential_debuggers p = None ∨ cls_potential_debuggers p = Some a).

(** What the entry [e] of a listing says about the backend [debugger]
    registered under [key]. *)
Definition describes (key : string) (debugger : DebuggerBase)
    (e : LoadedDebugger) : Prop :=
  option_name e = key
  ∧ full_name e = "[" +:+ name debugger +:+ "]"
  ∧ ld_is_available e = is_available debugger
  ∧ (is_available debugger = true →
     ld_version e = Some (from_option splitlines [""] (version debugger)))
  ∧ (is_available debugger = false →
     error e = Some (from_option splitlines [""] (loading_error debugger))
     ∧ error_trace e = Some (loading_error_trace debugger)).

Definition is_assertion (e : exn) : Prop := ∃ args, e = AssertionError args.

(** Imports fail with [ImportError] only. *)
Definition imports_fail_softly (src : Sources) : Prop :=
  ∀ dir_ m e, load_module src dir_ m = inl e → e = ImportError.

(** [c] is a class of some module that the scan loads. *)
Definition candidate (src : Sources) (c : PyClass) : Prop :=
  ∃ dir_ files m members,
    (dir_, files) ∈ os_walk src
    ∧ m ∈ potential_modules files
    ∧ load_module src dir_ m = inr members
    ∧ c ∈ members.

(** The dictionary at [a] answers for every backend class among [S]: the
    key of the class is bound to a class of the same name. *)
Definition registered (a : nat) (S : PyClass → Prop) (p : Process) : Prop :=
  ∃ d, heap p !! a = Some d
       ∧ ∀ c key, S c → is_debugger c = true → get_option_name c = Some key →
           ∃ c0, d !! key = Some c0 ∧ cls_name c0 = cls_name c.

Definition step_ok (a : nat) (S : PyClass → Prop) (r : result unit * Process)
    : Prop :=
  match r with
  | (inr _, p') => registered a S p'
  | (inl e, _) => is_assertion e
  end.

End Registry.

(** ** The rendering of a trace: [DextIR.__str__] *)

Module Rendering.
Import DextIR Py.

Definition colors : string := "rgby".

(** [step.step_kind in (FUNC, FUNC_EXTERNAL, FUNC_UNKNOWN)]. *)
Definition is_func_kind (k : option StepKind) : bool :=
  bool_decide (k ∈ [Some FUNC; Some FUNC_EXTERNAL; Some FUNC_UNKNOWN]).

(** [colors[color_idx % len(colors)]]: the index is always in range. *)
Definition color_at (color_idx : nat) : ascii :=
  default "r"%char
          (String.get (color_idx mod String.length colors)%nat colors).

(** The loop over [self.steps]: the colour chosen for every step, with
    [color_idx] as it stands before the step. *)
Fixpoint colored (color_idx : nat) (l : list StepIR) : list (ascii * StepIR) :=
  match l with
  | [] => []
  | step :: l' =>
      let color_idx :=
        if is_func_kind (step_kind step) then S color_idx else color_idx in
      (color_at color_idx, step) :: colored color_idx l'
  end.

Section Str.
(** [StepIR.__str__], of [dex/dextIR/StepIR.py]. *)
Variable step_str : StepIR → string.

(** ['<{}>{}</>\n'.format(color, step)]. *)
Definition line (cs : ascii * StepIR) : string :=
  "<" +:+ String cs.1 "" +:+ ">" +:+ step_str cs.2 +:+ "</>" +:+ newline.

Definition __str__ (self : t) : string :=
  "## BEGIN ##" +:+ newline
  +:+ String.concat "" (line <$> colored 0 (steps self))
  +:+ "## END (" +:+ pretty (num_steps self) +:+ " step"
  +:+ (if bool_decide (num_steps self = 1%nat) then "" else "s")
  +:+ ") ##" +:+ newline.
End Str.

(** The number of function entries among [l]. *)
Definition entries (l : list StepIR) : nat :=
  length (filter (λ s, is_func_kind (step_kind s) = true) l).

(** What the kind of the first step of a trace says about it. *)
Definition consistent_head (s : StepIR) : Prop :=
  (is_func_kind (step_kind s) = true ↔ is_Some (current_function s))
  ∧ (step_kind s = Some UNKNOWN ↔ current_function s = None).

(** What the kind of a step [s] says about it and its predecessor [p]. *)
Definition consistent_pair (p s : StepIR) : Prop :=
  (is_func_kind (step_kind s) = true
   ↔ is_Some (current_function s) ∧ is_Some (current_function p)
     ∧ current_function p ≠ current_function s)
  ∧ (step_kind s = Some UNKNOWN
     ↔ current_function s = None ∨ current_function p = None).

End Rendering.

(** ** Steps as objects *)

Module StepObjects.
Import DextIR.

(** [self.steps] holds references: [objects] maps an address to the state
    of the [StepIR] object that lives there, [refs] is the list of
    addresses in [self.steps]. *)
Definition deref (objects : list StepIR) (refs : list nat) : list StepIR :=
  omap (λ a, objects !! a) refs.

(** The trace as a reader of [self.steps] sees it. *)
Definition view (objects : list StepIR) (refs : list nat) (self : t) : t :=
  set_steps (deref objects refs) self.

(** [new_step] on the object at address [a]: the classification reads the
    object and the last object of the trace, the assignment to
    [step.step_kind] writes the object in place, and the address is
    appended.  [self] carries the other fields. *)
Definition new_step_obj `{LocCompare} (self : t) (objects : list StepIR)
    (refs : list nat) (a : nat) : option (list StepIR * list nat) :=
  step ← objects !! a;
  Some (<[a := (new_step (view objects refs self) step).1]> objects,
        (refs ++ [a])%list).

End StepObjects.

(** ** What the scan of the package is expected to touch *)

Module Scan.
Import Py Debuggers.

(** The imports of a complete scan, in order: every potential module of
    every directory that [os.walk] yields. *)
Definition expected_loads (src : Sources) : list ScanEvent :=
  '(dir_, files) ← os_walk src;
  m ← potential_modules files;
  [LoadModule dir_ m].

(** The computation [m] adds to the log of scans the events [evs], or a
    beginning of them when it raises. *)
Definition logs (evs : list ScanEvent) (m : M unit) : Prop :=
  ∀ p, ∃ seen,
    scan_log (m p).2 = (scan_log p ++ seen)%list
    ∧ seen `prefix_of` evs
    ∧ ((m p).1 = inr () → seen = evs).

(** The classes that a complete scan meets, in order: the members of the
    modules that could be imported. *)
Definition all_classes (src : Sources) : list PyClass :=
  '(dir_, files) ← os_walk src;
  m ← potential_modules files;
  match load_module src dir_ m with
  | inr members => members
  | inl _ => []
  end.

(** The first backend class met under every key. *)
Definition first_bindings (classes : list PyClass) : gmap string PyClass :=
  foldl (λ d c,
           if is_debugger c then
             match get_option_name c with
             | Some key =>
                 match d !! key with
                 | Some _ => d
                 | None => <[key := c]> d
                 end
             | None => d
             end
           else d) ∅ classes.

(** The dictionary at [a] holds the first bindings of [classes]; a step
    of the scan that returns keeps it so. *)
Definition holds_first (a : nat) (classes : list PyClass) (p : Process)
    : Prop :=
  heap p !! a = Some (first_bindings classes).

Definition kept_first (a : nat) (classes : list PyClass)
    (r : result unit * Process) : Prop :=
  match r with
  | (inr _, p') => holds_first a classes p'
  | (inl _, _) => True
  end.

(** Every binding of the dictionary at [a] is a backend class of a scanned
    module, bound to the key it reports. *)
Definition sound (src : Sources) (a : nat) (p : Process) : Prop :=
  ∃ d, heap p !! a = Some d
       ∧ ∀ key c, d !! key = Some c →
           Registry.candidate src c
           ∧ is_debugger c = true
           ∧ get_option_name c = Some key.

End Scan.

(** ** What the listing shows of a backend *)

Module Listing.
Import Py Debuggers.

(** The backend has nothing to show on its line of the listing: it is
    available and its version is the empty string, or it is unavailable
    and its error message is the empty string. *)
Definition blank (debugger : DebuggerBase) : bool :=
  if is_available debugger then bool_decide (version debugger = Some "")
  else bool_decide (loading_error debugger = Some "").

(** Every class of the dictionary can be constructed for a listing. *)
Definition constructible (context : Context) (d : gmap string PyClass)
    : Prop :=
  map_Forall (λ _ c, ∃ debugger, construct c context None = inr debugger) d.


End Listing.

(** ** The parts of a run *)

Module Run.
Import Py Debuggers.

(** [CommandIR(loc=LocIR(path=command.path, lineno=command.lineno,
    column=None), raw_text=command.raw_text)]. *)
Definition command_ir (command : Command) : DextIR.CommandIR :=
  DextIR.mkCommandIR
    (DextIR.mkLocIR (cmd_path command) (cmd_lineno command) None)
    (cmd_raw_text command).

(** The body of the inner loop of [_get_command_infos]. *)
Definition add_command (command_type : string)
    (command_infos : DextIR.Commands) (command : Command)
    : DextIR.Commands :=
  od_append command_type (command_ir command)
    (if od_contains command_type command_infos then command_infos
     else (command_infos ++ [(command_type, [])])%list).

(** The commands of every type that has some, type by type. *)
Definition grouped (commands : list (string * list Command))
    : DextIR.Commands :=
  omap (λ '(command_type, cmds),
          match cmds with
          | [] => None
          | _ :: _ => Some (command_type, command_ir <$> cmds)
          end) commands.

(** Lines 219 to 221: the script to run again. *)
Definition entry_point (w : World) : string :=
  if isfile w (sys_argv0 w) then sys_argv0 w
  else path_join w [get_root_directory w; ".."; sys_argv0 w].

(** Lines 225 to 230: the command line of the child process. *)
Definition child_args (w : World) (context : Context) : list string :=
  [sys_executable w; entry_point w; "run-debugger-internal-"; temp_name w 0;
   temp_name w 1; "--working-directory"; working_directory context;
   "--unittest=off"; "--lint=off";
   "--indent-timer-level=" +:+ pretty (Timer_indent w + 2)].

(** Lines 209 to 217: the trace with its commands and the options, each
    written to a temporary file that is kept. *)
Definition written (w : World) (context : Context)
    (command_infos : DextIR.Commands) : list Effect :=
  [WriteTemp (temp_name w 0)
     (as_json w (DextIR.set_commands (Some command_infos)
                   (empty_debugger_steps context)));
   WriteTemp (temp_name w 1) (pickle_dump w (options context))].

(** Lines 224 to 235: the third temporary file lives as long as the child
    process runs. *)
Definition spawned (w : World) (context : Context) : list Effect :=
  [MakeTemp (temp_name w 2); Spawn (child_args w context);
   RemoveTemp (temp_name w 2)].


End Run.

(** ** The options of the debugger tools: [handle_debugger_tool_options] *)

Module ToolOptions.

(** The attributes of [context.options] that the handlers read and write.
    [debugger] is [None] when the options have no such attribute. *)
Record DebuggerOptions : Set := mkDebuggerOptions {
  lldb_executable : option string;
  debugger : option string;
  arch : option string;
  show_debugger : option bool;
  list_debuggers : bool
}.

(** The attributes of [defaults] that [add_debugger_tool_arguments] sets. *)
Record Defaults : Set := mkDefaults {
  default_lldb_executable : string;
  default_arch : string;
  default_show_debugger : bool
}.

(** [os.path.abspath] and [os.path.isfile]. *)
Record Host : Set := mkHost {
  abspath : string → string;
  isfile : string → bool
}.

Inductive tool_exn : Set :=
  | ToolArgumentError (msg : string)
  | NoAttribute (attr : string).

(** A warning as handed to [warn]: the message and the flag. *)
Definition Warning : Set := string * string.

Definition State : Set := DebuggerOptions * list Warning.

(** Handlers read and write the options, warn, and may raise. *)
Definition T (A : Type) : Type := State → (tool_exn + A) * State.

#[export] Instance T_ret : MRet T := λ A x s, (inr x, s).
#[export] Instance T_bind : MBind T := λ A B f m s,
  match m s with
  | (inl e, s') => (inl e, s')
  | (inr x, s') => f x s'
  end.

Definition raise {A} (e : tool_exn) : T A := λ s, (inl e, s).
Definition options : T DebuggerOptions := λ s, (inr s.1, s).
Definition warn (msg flag : string) : T unit :=
  λ s, (inr (), (s.1, (s.2 ++ [(msg, flag)])%list)).

Definition set_lldb_executable (v : string) : T unit :=
  λ s, (inr (), (mkDebuggerOptions (Some v) (debugger s.1) (arch s.1)
                   (show_debugger s.1) (list_debuggers s.1), s.2)).
Definition set_arch (v : string) : T unit :=
  λ s, (inr (), (mkDebuggerOptions (lldb_executable s.1) (debugger s.1)
                   (Some v) (show_debugger s.1) (list_debuggers s.1), s.2)).
Definition set_show_debugger (v : bool) : T unit :=
  λ s, (inr (), (mkDebuggerOptions (lldb_executable s.1) (debugger s.1)
                   (arch s.1) (Some v) (list_debuggers s.1), s.2)).

(** [options.debugger], read without a default. *)
Definition get_debugger : T string :=
  o ← options;
  match debugger o with
  | Some d => mret d
  | None => raise (NoAttribute "debugger")
  end.

Definition quote : string := String "034" "".

Definition meaningless (option : string) : string :=
  "option <y>" +:+ quote +:+ option +:+ quote
  +:+ "</> is meaningless with this debugger".

Definition _warn_meaningless_option (option : string) : T unit :=
  o ← options;
  if list_debuggers o then mret ()
  else d ← get_debugger; warn (meaningless option) ("--debugger=" +:+ d).

Definition handle_debugger_tool_options1 (host : Host) (defaults : Defaults)
    : T unit :=
  o ← options;
  match lldb_executable o with
  | None => set_lldb_executable (default_lldb_executable defaults)
  | Some exe =>
      (if bool_decide (default "lldb" (debugger o) ≠ "lldb")
       then _warn_meaningless_option "--lldb-executable"
       else mret ());;
      set_lldb_executable (abspath host exe);;
      if isfile host (abspath host exe) then mret ()
      else raise (ToolArgumentError
                    ("<d>could not find</> <r>" +:+ quote
                     +:+ abspath host exe +:+ quote +:+ "</>"))
  end.

Definition handle_debugger_tool_options (host : Host) (defaults : Defaults)
    : T unit :=
  handle_debugger_tool_options1 host defaults;;
  o ← options;
  match arch o with
  | None => set_arch (default_arch defaults)
  | Some _ =>
      d ← get_debugger;
      if bool_decide (d ≠ "lldb") then _warn_meaningless_option "--arch"
      else mret ()
  end;;
  o ← options;
  match show_debugger o with
  | None => set_show_debugger (default_show_debugger defaults)
  | Some _ =>
      d ← get_debugger;
      if bool_decide (d = "lldb")
      then _warn_meaningless_option "--show-debugger"
      else mret ()
  end.

(** The warnings of a complete handling for the debugger [d]: an option
    given on the command line that this debugger does not use. *)
Definition expected_warnings (o : DebuggerOptions) (d : string)
    : list Warning :=
  if list_debuggers o then []
  else
    ((if bool_decide (is_Some (lldb_executable o) ∧ d ≠ "lldb")
      then [(meaningless "--lldb-executable", "--debugger=" +:+ d)] else [])
     ++ (if bool_decide (is_Some (arch o) ∧ d ≠ "lldb")
         then [(meaningless "--arch", "--debugger=" +:+ d)] else [])
     ++ (if bool_decide (is_Some (show_debugger o) ∧ d = "lldb")
         then [(meaningless "--show-debugger", "--debugger=" +:+ d)]
         else []))%list.

End ToolOptions.

(** ** More concrete inputs *)

Module MoreExamples.
Import Py Debuggers Examples.

(** The trace of the scenario of section 8. *)
Definition scenario_trace : DextIR.t :=
  @DextIR.new_steps DextIR.spec_order
    (DextIR.init "1.0" "a.out" ["file.c"] None None None)
    DextIR.scenario_steps.

(** An available backend that reports an empty version string. *)
Definition silent_class : PyClass :=
  mkClass 6 "Silent" true (Some "silent")
          (λ _ _, inr (mkDebugger "silent" true (Some "") None None)).

Definition silent_sources : Sources :=
  package [("LLDB", [base_class; lldb_class]);
           ("Silent", [base_class; silent_class])].

(** Two watches in [test.cpp] and no other command. *)
Definition ex_commands : list (string * list Command) :=
  [("DexUnreachable", []);
   ("DexWatch", [mkCommand (Some "test.cpp") (Some 3) "DexWatch('a')";
                 mkCommand (Some "test.cpp") (Some 7) "DexWatch('b')"])].

(** A world whose parser finds [ex_commands], in which the files named by
    [files] exist and the child exits with [returncode]. *)
Definition world (files : list string) (returncode : Z) : World :=
  mkWorld (λ _, inr ex_commands)
          (λ _, "{}") (λ _, "") (λ n, "/tmp/dexter/tmp" +:+ pretty n)
          "dexter.py" "python" (λ f, bool_decide (f ∈ files)) "/opt/dexter/dex"
          (join "/") 0 (λ _, returncode)
          (λ _, "{}") (λ _, DextIR.init "1.0" "a.out" [] None None None).

(** A world whose parser cannot read a source file. *)
Definition unreadable_world : World :=
  mkWorld (λ _, inl (Raised "IOError"))
          (λ _, "{}") (λ _, "") (λ n, "/tmp/dexter/tmp" +:+ pretty n)
          "dexter.py" "python" (λ _, true) "/opt/dexter/dex"
          (join "/") 0 (λ _, 0)
          (λ _, "{}") (λ _, DextIR.init "1.0" "a.out" [] None None None).

(** A host on which only [/cwd/lldb-6] is a file. *)
Definition ex_host : ToolOptions.Host :=
  ToolOptions.mkHost (λ f, "/cwd/" +:+ f)
                     (λ f, bool_decide (f = "/cwd/lldb-6")).

Definition ex_defaults : ToolOptions.Defaults :=
  ToolOptions.mkDefaults "lldb" "x86_64" false.

End MoreExamples.

(** * Properties of the step trace *)

Section StepTrace.
Import DextIR.
Context `{LocCompare}.

(** Whatever the classification, [new_step] changes the trace only by
    storing the step it returns at the end of [steps]. *)
Lemma new_step_stores (self : t) (step : StepIR) :
  (new_step self step).2
  = set_steps (steps self ++ [(new_step self step).1]) self.
Proof. reflexivity. Qed.

(** The function and the location of a step are never written. *)
Lemma new_step_keeps (self : t) (step : StepIR) :
  current_function (new_step self step).1 = current_function step
  ∧ current_location (new_step self step).1 = current_location step.
Proof.
  unfold new_step; simpl.
  repeat case_match; done.
Qed.

Lemma _step_kind_func_cases (source_paths : list string) (step : StepIR) :
  let p := path (current_location step) in
  let k := _step_kind_func source_paths step in
  (∀ s, p = Some s → s ∈ source_paths → k = FUNC)
  ∧ (p = None → k = FUNC_UNKNOWN)
  ∧ (∀ s, p = Some s → s ∉ source_paths → k = FUNC_EXTERNAL).
Proof.
  unfold _step_kind_func, path_in.
  destruct (path (current_location step)) as [s'|]; simpl.
  - split_and!; [|done|].
    + intros s [= ->] Hin. by rewrite bool_decide_eq_true_2.
    + intros s [= ->] Hin. by rewrite bool_decide_eq_false_2.
  - split_and!; done.
Qed.

(** C1, as the code has it.  A step with a function, appended to a trace
    that is empty or whose last step has a function and it is another one,
    is a function entry: [FUNC] when its path is one of [source_paths],
    [FUNC_UNKNOWN] when it has no path, [FUNC_EXTERNAL] otherwise. *)
Theorem new_step_function_entry (self : t) (step : StepIR) (f : string) :
  current_function step = Some f →
  (steps self = []
   ∨ ∃ prev g, last (steps self) = Some prev
               ∧ current_function prev = Some g ∧ g ≠ f) →
  let p := path (current_location step) in
  let k := step_kind (new_step self step).1 in
  (∀ s, p = Some s → s ∈ source_paths self → k = Some FUNC)
  ∧ (p = None → k = Some FUNC_UNKNOWN)
  ∧ (∀ s, p = Some s → s ∉ source_paths self → k = Some FUNC_EXTERNAL).
Proof.
  intros Hf Hprev.
  assert (step_kind (new_step self step).1
          = Some (_step_kind_func (source_paths self) step)) as Hk.
  { unfold new_step; simpl. rewrite Hf.
    destruct Hprev as [-> | (prev & g & -> & Hg & Hne)]; [done|].
    rewrite Hg. rewrite bool_decide_eq_false_2 by done.
    rewrite bool_decide_eq_true_2 by congruence. done. }
  intros p k. subst p k. rewrite Hk.
  destruct (_step_kind_func_cases (source_paths self) step) as (H1 & H2 & H3).
  split_and!; intros; f_equal; eauto.
Qed.

(** C2.  A step without a function is [UNKNOWN], and so is any step that
    follows a step without a function, whatever came before in the trace. *)
Theorem new_step_unknown (self : t) (step : StepIR) :
  (current_function step = None
   ∨ (is_Some (current_function step)
      ∧ ∃ prev, last (steps self) = Some prev
                ∧ current_function prev = None)) →
  step_kind (new_step self step).1 = Some UNKNOWN.
Proof.
  intros [Hf | ([f Hf] & prev & Hlast & Hprev)];
    unfold new_step; simpl; rewrite Hf; [done|].
  rewrite Hlast, Hprev. done.
Qed.

(** C10.  Same function as the last step, and none of [==], [>], [<]
    holds between the two locations: [new_step] stores and returns the step
    exactly as it received it, [step_kind] included. *)
Theorem new_step_incomparable (self : t) (step prev : StepIR) (f : string) :
  current_function step = Some f →
  last (steps self) = Some prev →
  current_function prev = Some f →
  loc_eq (current_location prev) (current_location step) = false →
  loc_gt (current_location prev) (current_location step) = false →
  loc_lt (current_location prev) (current_location step) = false →
  new_step self step = (step, set_steps (steps self ++ [step]) self).
Proof.
  intros Hf Hlast Hprev Heq Hgt Hlt.
  unfold new_step. rewrite Hf, Hlast, Hprev, Heq, Hgt, Hlt.
  rewrite bool_decide_eq_false_2 by done.
  rewrite bool_decide_eq_false_2 by (intros Hne; by apply Hne).
  done.
Qed.

Context `{!LocStrict}.

(** C3.  Same function as the last step: [SAME] when the locations are
    equal, [BACKWARD] when the last location is greater than the new one,
    [FORWARD] when it is less. *)
Theorem new_step_same_function (self : t) (step prev : StepIR) (f : string) :
  current_function step = Some f →
  last (steps self) = Some prev →
  current_function prev = Some f →
  let k := step_kind (new_step self step).1 in
  (loc_eq (current_location prev) (current_location step) = true
   → k = Some SAME)
  ∧ (loc_gt (current_location prev) (current_location step) = true
     → k = Some BACKWARD)
  ∧ (loc_lt (current_location prev) (current_location step) = true
     → k = Some FORWARD).
Proof.
  intros Hf Hlast Hprev k. subst k. unfold new_step.
  rewrite Hf, Hlast, Hprev.
  rewrite bool_decide_eq_false_2 by done.
  rewrite bool_decide_eq_false_2 by (intros Hne; by apply Hne).
  split_and!.
  - intros ->. done.
  - intros Hgt. rewrite (loc_gt_not_eq _ _ Hgt), Hgt. done.
  - intros Hlt.
    rewrite (loc_lt_not_eq _ _ Hlt), (loc_lt_not_gt _ _ Hlt), Hlt. done.
Qed.

End StepTrace.

(** * The order modelled from the spec *)

Section SpecOrder.
Import DextIR.

Lemma opt_lt_irrefl (a : option Z) : opt_lt a a = false.
Proof. destruct a; simpl; [|done]. apply bool_decide_eq_false. lia. Qed.

Lemma opt_lt_asym (a b : option Z) : opt_lt a b = true → opt_lt b a = false.
Proof.
  destruct a, b; simpl; try done.
  rewrite bool_decide_eq_true, bool_decide_eq_false. lia.
Qed.

Lemma line_column_lt_irrefl (a : LocIR) : line_column_lt a a = false.
Proof. unfold line_column_lt. rewrite !opt_lt_irrefl. by rewrite andb_false_r. Qed.

Lemma line_column_lt_asym (a b : LocIR) :
  line_column_lt a b = true → line_column_lt b a = false.
Proof.
  unfold line_column_lt. intros Hab.
  apply orb_true_iff in Hab as [Hl | [He Hc]%andb_true_iff].
  - rewrite (opt_lt_asym _ _ Hl); simpl.
    case_bool_decide as He; [|done].
    rewrite He, opt_lt_irrefl in Hl. done.
  - apply bool_decide_eq_true in He. rewrite He, opt_lt_irrefl; simpl.
    rewrite (opt_lt_asym _ _ Hc). by rewrite andb_false_r.
Qed.

Lemma line_column_lt_neq (a b : LocIR) :
  line_column_lt a b = true → a ≠ b.
Proof. intros Hlt ->. by rewrite line_column_lt_irrefl in Hlt. Qed.

(** The comparisons modelled from the spec are strict. *)
#[export] Instance spec_order_strict : @LocStrict spec_order.
Proof.
  split; simpl; intros a b Hlt.
  - apply bool_decide_eq_false. intros ->.
    by rewrite line_column_lt_irrefl in Hlt.
  - apply bool_decide_eq_false. by apply line_column_lt_neq.
  - by apply line_column_lt_asym.
Qed.

(** C4.  The scenario of section 8: from an empty trace whose source paths
    are [file.c], the six steps receive the kinds [FUNC], [SAME],
    [FORWARD], [BACKWARD], [FUNC], [UNKNOWN], in this order. *)
Theorem scenario_kinds (v exe : string) (b : option BuilderIR)
    (d : option DebuggerIR) (c : option Commands) :
  step_kind <$> steps (@new_steps spec_order (init v exe ["file.c"] b d c)
                                  scenario_steps)
  = [Some FUNC; Some SAME; Some FORWARD; Some BACKWARD; Some FUNC;
     Some UNKNOWN].
Proof. reflexivity. Qed.

(** C9.  [clear_steps] leaves a trace without steps and with every other
    field as it was. *)
Theorem clear_steps_frame (self : t) :
  let self' := clear_steps self in
  num_steps self' = 0%nat
  ∧ steps self' = []
  ∧ dexter_version self' = dexter_version self
  ∧ executable_path self' = executable_path self
  ∧ source_paths self' = source_paths self
  ∧ builder self' = builder self
  ∧ debugger self' = debugger self
  ∧ commands self' = commands self.
Proof. by split_and!. Qed.

(** C1 as stated fails when the last step has no function: its
    function, [None], differs from [main], the path of the new step is a
    source path, and yet the step is [UNKNOWN], not [FUNC]. *)
Lemma function_entry_after_unknown :
  let self := set_steps [stop None "file.c" 9]
                        (init "v" "a.out" ["file.c"] None None None) in
  let step := stop (Some "main") "file.c" 10 in
  is_Some (current_function step)
  ∧ (∃ prev, last (steps self) = Some prev
             ∧ current_function prev ≠ current_function step)
  ∧ path_in (path (current_location step)) (source_paths self) = true
  ∧ step_kind (@new_step spec_order self step).1 = Some UNKNOWN
  ∧ step_kind (@new_step spec_order self step).1 ≠ Some FUNC.
Proof.
  split_and!; [by eexists| |reflexivity|reflexivity|discriminate].
  eexists. split; [reflexivity|discriminate].
Qed.

(** A first step in a file of the trace, and a change of function into a
    file outside of it. *)
Lemma new_step_function_entry_witness :
  step_kind (@new_step spec_order (init "v" "a.out" ["file.c"] None None None)
                       (stop (Some "main") "file.c" 10)).1 = Some FUNC
  ∧ step_kind (@new_step spec_order
                 (set_steps [stop (Some "main") "file.c" 10]
                            (init "v" "a.out" ["file.c"] None None None))
                 (stop (Some "printf") "stdio.c" 3)).1 = Some FUNC_EXTERNAL.
Proof.
  split.
  - apply (proj1 (@new_step_function_entry spec_order
                    (init "v" "a.out" ["file.c"] None None None)
                    (stop (Some "main") "file.c" 10) "main"
                    eq_refl (or_introl eq_refl)) "file.c" eq_refl).
    apply list_elem_of_here.
  - refine (proj2 (proj2 (@new_step_function_entry spec_order
                     (set_steps [stop (Some "main") "file.c" 10]
                        (init "v" "a.out" ["file.c"] None None None))
                     (stop (Some "printf") "stdio.c" 3) "printf" eq_refl _))
              "stdio.c" eq_refl _).
    { right. exists (stop (Some "main") "file.c" 10), "main".
      split; [reflexivity|]. split; [reflexivity|discriminate]. }
    intros Hin. apply list_elem_of_singleton in Hin. discriminate.
Defined.

(** A step with a function that follows a step without one. *)
Lemma new_step_unknown_witness :
  step_kind (@new_step spec_order
               (set_steps [stop (Some "main") "file.c" 10;
                           stop None "file.c" 11]
                          (init "v" "a.out" ["file.c"] None None None))
               (stop (Some "main") "file.c" 12)).1 = Some UNKNOWN.
Proof.
  apply (@new_step_unknown spec_order). right. split.
  - by eexists.
  - eexists. split; reflexivity.
Defined.

(** Line 11 after line 10 of the same function. *)
Lemma new_step_same_function_witness :
  step_kind (@new_step spec_order
               (set_steps [stop (Some "main") "file.c" 10]
                          (init "v" "a.out" ["file.c"] None None None))
               (stop (Some "main") "file.c" 11)).1 = Some FORWARD.
Proof.
  apply (proj2 (proj2 (@new_step_same_function spec_order spec_order_strict
                  (set_steps [stop (Some "main") "file.c" 10]
                     (init "v" "a.out" ["file.c"] None None None))
                  (stop (Some "main") "file.c" 11)
                  (stop (Some "main") "file.c" 10) "main"
                  eq_refl eq_refl eq_refl))).
  reflexivity.
Defined.

(** The same function at line 10 of two different files: the locations
    are not equal, and neither is before the other. *)
Lemma new_step_incomparable_witness :
  @new_step spec_order
    (set_steps [stop (Some "main") "a.c" 10]
               (init "v" "a.out" ["a.c"; "b.h"] None None None))
    (stop (Some "main") "b.h" 10)
  = (stop (Some "main") "b.h" 10,
     set_steps [stop (Some "main") "a.c" 10; stop (Some "main") "b.h" 10]
               (init "v" "a.out" ["a.c"; "b.h"] None None None)).
Proof.
  apply (@new_step_incomparable spec_order
           (set_steps [stop (Some "main") "a.c" 10]
                      (init "v" "a.out" ["a.c"; "b.h"] None None None))
           (stop (Some "main") "b.h" 10) (stop (Some "main") "a.c" 10) "main");
    reflexivity.
Defined.

End SpecOrder.

(** * Properties of the coordinator *)

Section Coordinator.
Import Py Debuggers Examples.

(** C8.  When the command parser raises a parse failure, the run ends with
    one [DebuggerException] whose message holds the file name, the line
    number, the parser's message, the source line and the caret line; no
    file has been written, no process started, and no trace is returned. *)
Theorem parse_failure_aborts (w : World) (context : Context)
    (e : CommandParseError) :
  find_all_commands w (source_files (options context))
  = inl (CommandParseError_ e) →
  get_debugger_steps w context
  = (inl (DebuggerException
            ("parser error: <d>" +:+ str (filename e) +:+ "("
             +:+ str (cpe_lineno e) +:+ "):</> " +:+ str (info e)
             +:+ newline +:+ str (src e) +:+ newline +:+ str (caret e)
             +:+ newline)),
     []).
Proof.
  intros Hparse. unfold get_debugger_steps, _get_command_infos.
  rewrite Hparse. reflexivity.
Qed.

(** A parse failure at line 12 of [test.cpp]. *)
Lemma parse_failure_aborts_witness :
  get_debugger_steps failing_world ex_context
  = (inl (DebuggerException
            ("parser error: <d>test.cpp(12):</> expected closing parenthesis"
             +:+ newline +:+ "// DexWatch('a'" +:+ newline
             +:+ "                ^" +:+ newline)),
     []).
Proof.
  apply (parse_failure_aborts failing_world ex_context ex_parse_error).
  reflexivity.
Defined.

End Coordinator.

(** * Properties of the registry *)

Section RegistryFacts.
Import Py Debuggers Registry Examples.

(** ** Running computations *)

Lemma bind_inr {A B} (m : M A) (f : A → M B) (p p' : Process) (x : A) :
  m p = (inr x, p') → (m ≫= f) p = f x p'.
Proof. intros Hm. unfold mbind, M_bind. by rewrite Hm. Qed.

Lemma bind_inl {A B} (m : M A) (f : A → M B) (p p' : Process) (e : exn) :
  m p = (inl e, p') → (m ≫= f) p = (inl e, p').
Proof. intros Hm. unfold mbind, M_bind. by rewrite Hm. Qed.

Ltac run :=
  cbv beta iota zeta delta
    [mbind M_bind mret M_ret raise lift get put log read_dict write_dict
     new_dict set_gpd_cached set_cls_potential_debuggers];
  simpl.

#[local] Instance keeps_attrs_preorder : PreOrder keeps_attrs.
Proof.
  split.
  - by intros p.
  - intros p1 p2 p3 [H1 H2] [H3 H4]. split; congruence.
Qed.

Lemma for_keeps {A} (l : list A) (body : A → M unit) :
  (∀ x p, keeps_attrs p (body x p).2) →
  ∀ p, keeps_attrs p (for_ l body p).2.
Proof.
  intros Hbody. induction l as [|x l IH]; intros p; simpl.
  - reflexivity.
  - unfold mbind, M_bind. specialize (Hbody x p).
    destruct (body x p) as [[e|[]] p']; simpl in *; [done|].
    etrans; [exact Hbody|apply IH].
Qed.

Lemma register_keeps (cached : nat) (c : PyClass) (p : Process) :
  keeps_attrs p (register cached c p).2.
Proof.
  unfold register.
  destruct (is_debugger c); [|reflexivity].
  destruct (get_option_name c) as [key|]; [|reflexivity].
  run. destruct (heap p !! cached) as [d|]; simpl; [|reflexivity].
  destruct (d !! key) as [c0|]; [|by split].
  case_bool_decide; reflexivity.
Qed.

Lemma scan_module_keeps (src : Sources) (cached : nat) (dir_ m : string)
    (p : Process) :
  keeps_attrs p (scan_module src cached dir_ m p).2.
Proof.
  unfold scan_module. run.
  destruct (load_module src dir_ m) as [e|members].
  - destruct e; by split.
  - etrans; [|apply for_keeps, register_keeps]. by split.
Qed.


Lemma scan_keeps (src : Sources) (cached : nat) (p : Process) :
  keeps_attrs p
    (for_ (os_walk src) (λ '(dir_, files),
       for_ (potential_modules files) (scan_module src cached dir_)) p).2.
Proof.
  apply for_keeps. intros [dir_ files] q.
  apply for_keeps. intros m q'. apply scan_module_keeps.
Qed.

(** Once the function attribute is set, a call returns it and touches
    nothing. *)
Lemma _get_potential_debuggers_cached (src : Sources) (p : Process) (a : nat) :
  gpd_cached p = Some a → _get_potential_debuggers src p = (inr a, p).
Proof. intros Ha. unfold _get_potential_debuggers. run. by rewrite Ha. Qed.

(** A call that finds the attribute unset leaves it set to the dictionary
    it allocated, whether it returns or raises. *)
Lemma _get_potential_debuggers_first (src : Sources) (p : Process) :
  gpd_cached p = None →
  let a := length (heap p) in
  gpd_cached (_get_potential_debuggers src p).2 = Some a
  ∧ cls_potential_debuggers (_get_potential_debuggers src p).2
    = cls_potential_debuggers p
  ∧ ∀ a1, (_get_potential_debuggers src p).1 = inr a1 → a1 = a.
Proof.
  intros Hp a. unfold _get_potential_debuggers. run. rewrite Hp.
  match goal with |- context [for_ _ _ ?q] =>
    pose proof (scan_keeps src a q) as [Hg Hc]; simpl in Hg, Hc;
    destruct (for_ (os_walk src) _ q) as [[e|[]] p'] eqn:Hscan
  end; simpl in *.
  - split_and!; [done..|]. intros a1 [=].
  - split_and!; [done..|]. by intros a1 [= <-].
Qed.


Lemma discover_memoized (src : Sources) (acc : Accessor) (a : nat)
    (p : Process) :
  memoized a p →
  (discover src acc p).1 = inr a
  ∧ heap (discover src acc p).2 = heap p
  ∧ scan_log (discover src acc p).2 = scan_log p
  ∧ memoized a (discover src acc p).2.
Proof.
  intros [Hg Hc]. destruct acc; simpl.
  - rewrite (_get_potential_debuggers_cached _ _ _ Hg). by split_and!.
  - unfold potential_debuggers. run. destruct Hc as [Hc | Hc]; rewrite Hc.
    + rewrite (_get_potential_debuggers_cached _ _ _ Hg); simpl.
      split_and!; try done; split; simpl; auto.
    + split_and!; try done. split; auto.
Qed.

Lemma discover_again_memoized (calls : list (Sources * Accessor)) (a : nat)
    (p : Process) :
  memoized a p →
  (discover_again calls p).1 = replicate (length calls) (inr a)
  ∧ heap (discover_again calls p).2 = heap p
  ∧ scan_log (discover_again calls p).2 = scan_log p.
Proof.
  revert p. induction calls as [|[src acc] calls IH]; intros p Hp; simpl.
  - done.
  - destruct (discover_memoized src acc a p Hp) as (Hr & Hh & Hl & Hm).
    destruct (discover src acc p) as [r p']; simpl in *.
    destruct (IH p' Hm) as (Hrs & Hh' & Hl').
    destruct (discover_again calls p') as [rs p'']; simpl in *.
    split_and!; [by rewrite Hr, Hrs|congruence|congruence].
Qed.

Lemma discover_first (src : Sources) (acc : Accessor)
    (h : list (gmap string PyClass)) (lg : list ScanEvent) :
  let p := mkProcess h None None lg in
  memoized (length h) (discover src acc p).2
  ∧ ∀ a1, (discover src acc p).1 = inr a1 → a1 = length h.
Proof.
  intros p.
  destruct (_get_potential_debuggers_first src p eq_refl) as (Hg & Hc & Hr).
  destruct acc; simpl.
  - split; [split; auto|done].
  - unfold potential_debuggers. run.
    destruct (_get_potential_debuggers src p) as [[e|a1] p']; simpl in *.
    + split; [split; auto|]. intros a1 [=].
    + split; [split; simpl; auto|]. intros ? [= <-]. by apply Hr.
Qed.

(** C7.  In a process where nothing is cached yet, a first call of
    discovery (the function or the class method) allocates the dictionary;
    every later call of either, whatever the package directory then holds,
    returns that same dictionary object, with the keys and classes it had
    after the first call, and adds nothing to the log of scans. *)
Theorem discovery_memoized (src : Sources) (acc : Accessor)
    (h : list (gmap string PyClass)) (lg : list ScanEvent)
    (later : list (Sources * Accessor)) :
  let p := mkProcess h None None lg in
  let p1 := (discover src acc p).2 in
  let a := length h in
  (∀ a1, (discover src acc p).1 = inr a1 → a1 = a)
  ∧ (discover_again later p1).1 = replicate (length later) (inr a)
  ∧ heap (discover_again later p1).2 = heap p1
  ∧ heap (discover_again later p1).2 !! a = heap p1 !! a
  ∧ scan_log (discover_again later p1).2 = scan_log p1.
Proof.
  intros p p1 a.
  destruct (discover_first src acc h lg) as [Hm Hr].
  destruct (discover_again_memoized later a p1 Hm) as (Hrs & Hheap & Hlog).
  split_and!; [exact Hr|exact Hrs|exact Hheap|by rewrite Hheap|exact Hlog].
Qed.


(** ** Listing *)

Lemma potential_debuggers_sets (src : Sources) (p p' : Process) (a : nat) :
  potential_debuggers src p = (inr a, p') →
  cls_potential_debuggers p' = Some a.
Proof.
  unfold potential_debuggers. run.
  destruct (cls_potential_debuggers p) as [b|] eqn:Hc.
  - by intros [= <- <-].
  - destruct (_get_potential_debuggers src p) as [[e|a1] q]; simpl; [done|].
    by intros [= <- <-].
Qed.

Lemma potential_debuggers_set (src : Sources) (p : Process) (a : nat) :
  cls_potential_debuggers p = Some a →
  potential_debuggers src p = (inr a, p).
Proof. intros Hc. unfold potential_debuggers. run. by rewrite Hc. Qed.

Lemma load_found (src : Sources) (context : Context) (key : string)
    (step_collection : option DextIR.t) (p : Process) (a : nat)
    (d : gmap string PyClass) (c : PyClass) :
  cls_potential_debuggers p = Some a →
  heap p !! a = Some d →
  d !! key = Some c →
  load src context key step_collection p
  = (construct c context step_collection, p).
Proof.
  intros Hc Hd Hkey. unfold load.
  rewrite (bind_inr _ _ _ _ _ (potential_debuggers_set src p a Hc)).
  run. by rewrite Hd, Hkey.
Qed.

Lemma mapM_Forall2 {A B} (f : A → M B) (R : A → B → Prop) (l : list A)
    (p : Process) :
  Forall (λ x, ∃ y, f x p = (inr y, p) ∧ R x y) l →
  ∃ ys, mapM f l p = (inr ys, p) ∧ Forall2 R l ys.
Proof.
  induction 1 as [|x l (y & Hy & HR) Hl (ys & Hys & IH)].
  - by exists [].
  - exists (y :: ys). split; [|by constructor].
    simpl. rewrite (bind_inr _ _ _ _ _ Hy), (bind_inr _ _ _ _ _ Hys). done.
Qed.

Lemma elem_of_keys (d : gmap string PyClass) (key : string) :
  key ∈ keys d ↔ is_Some (d !! key).
Proof.
  unfold keys. rewrite list_elem_of_fmap. split.
  - intros ([k c] & -> & Hin). apply elem_of_map_to_list in Hin. by eexists.
  - intros [c Hc]. exists (key, c). split; [done|].
    by apply elem_of_map_to_list.
Qed.

Lemma sorted_keys (d : gmap string PyClass) :
  sorted (keys d) ≡ₚ keys d ∧ NoDup (sorted (keys d)).
Proof.
  assert (sorted (keys d) ≡ₚ keys d) as Hperm
    by apply merge_sort_Permutation.
  split; [done|]. rewrite Hperm. apply NoDup_fst_map_to_list.
Qed.


Lemma snapshot_describes (key : string) (debugger : DebuggerBase) :
  describes key debugger (snapshot key debugger).
Proof.
  unfold describes, snapshot.
  destruct (is_available debugger), (version debugger),
    (loading_error debugger); simpl; by split_and!.
Qed.

Lemma mapM_stops {A B} (f : A → M B) (l : list A) (p : Process) :
  (∀ x, x ∈ l → (f x p).2 = p) →
  (∃ x e, x ∈ l ∧ (f x p).1 = inl e) →
  ∃ x e, x ∈ l ∧ (f x p).1 = inl e ∧ mapM f l p = (inl e, p).
Proof.
  induction l as [|x l IH]; intros Hstate (y & e & Hy & He).
  - by apply not_elem_of_nil in Hy.
  - pose proof (Hstate x (list_elem_of_here _ _)) as Hx.
    destruct (f x p) as [[e'|z] q] eqn:Hfx; simpl in Hx; subst q.
    + exists x, e'. split_and!; [apply list_elem_of_here|by rewrite Hfx|].
      simpl. by rewrite (bind_inl _ _ _ _ _ Hfx).
    + destruct IH as (x' & e' & Hx' & He' & Hrun).
      { intros x' Hx'. apply Hstate. by apply list_elem_of_further. }
      { apply elem_of_cons in Hy as [->|Hy]; [|by eauto].
        rewrite Hfx in He. done. }
      exists x', e'. split_and!; [by apply list_elem_of_further|done|].
      simpl. rewrite (bind_inr _ _ _ _ _ Hfx), (bind_inl _ _ _ _ _ Hrun).
      done.
Qed.

(** C5, as the code has it.  With the backends discovered: when every one
    of them can be constructed, the snapshot is made without an exception
    and holds one entry per discovered key, in the order of the sorted
    keys, and the entry of a backend that reports itself unavailable
    carries the lines of its error message and its optional trace; when
    the constructor of one of them raises, the snapshot and the listing
    end with the exception of such a constructor and yield no entry. *)
Theorem snapshot_complete (src : Sources) (context : Context)
    (p p' : Process) (a : nat) (d : gmap string PyClass) :
  potential_debuggers src p = (inr a, p') →
  heap p' !! a = Some d →
  (map_Forall (λ _ c, ∃ debugger, construct c context None = inr debugger) d →
   ∃ entries,
     _populate_debugger_cache src context p = (inr entries, p')
     ∧ option_name <$> entries = sorted (keys d)
     ∧ option_name <$> entries ≡ₚ keys d
     ∧ NoDup (option_name <$> entries)
     ∧ Forall (λ e, ∃ c debugger,
                 d !! option_name e = Some c
                 ∧ construct c context None = inr debugger
                 ∧ describes (option_name e) debugger e) entries)
  ∧ ((∃ key c e, d !! key = Some c ∧ construct c context None = inl e) →
     ∃ key c e,
       d !! key = Some c ∧ construct c context None = inl e
       ∧ _populate_debugger_cache src context p = (inl e, p')
       ∧ list_ src context p = (inl e, p')).
Proof.
  intros Hpd Hd.
  pose proof (potential_debuggers_sets _ _ _ _ Hpd) as Hc.
  destruct (sorted_keys d) as [Hperm Hnodup].
  assert (_populate_debugger_cache src context p
          = mapM (λ key, debugger ← load src context key None;
                         mret (snapshot key debugger))
                 (sorted (keys d)) p') as Hunfold.
  { unfold _populate_debugger_cache.
    rewrite (bind_inr _ _ _ _ _ Hpd).
    erewrite bind_inr; [done|]. run. by rewrite Hd. }
  split.
  - intros Hok.
    destruct (mapM_Forall2
                (λ key, debugger ← load src context key None;
                        mret (snapshot key debugger))
                (λ key e, option_name e = key
                          ∧ ∃ c debugger,
                              d !! key = Some c
                              ∧ construct c context None = inr debugger
                              ∧ describes key debugger e)
                (sorted (keys d)) p') as (entries & Hrun & Hall).
    { apply Forall_forall. intros key Hkey.
      rewrite Hperm in Hkey. apply elem_of_keys in Hkey as [c Hkey].
      destruct (Hok key c Hkey) as [debugger Hdebugger].
      exists (snapshot key debugger). split.
      - erewrite bind_inr; [done|].
        erewrite load_found by done. by rewrite Hdebugger.
      - split; [apply snapshot_describes|].
        exists c, debugger. split_and!; try done. apply snapshot_describes. }
    assert (option_name <$> entries = sorted (keys d)) as Hnames.
    { clear -Hall. induction Hall as [|key e ks es [He _] _ IH]; [done|].
      rewrite fmap_cons. by f_equal. }
    exists entries. split_and!.
    + by rewrite Hunfold.
    + done.
    + by rewrite Hnames.
    + by rewrite Hnames.
    + clear -Hall. induction Hall as [|key e ks es [He Hdesc] _ IH]; [done|].
      constructor; [|done]. by rewrite He.
  - intros (key & c & e & Hkey & He).
    assert (∀ key', key' ∈ sorted (keys d) →
              ∃ c', d !! key' = Some c'
                    ∧ (debugger ← load src context key' None;
                       mret (snapshot key' debugger)) p'
                      = (match construct c' context None with
                         | inl e' => inl e'
                         | inr debugger => inr (snapshot key' debugger)
                         end, p')) as Hload.
    { intros key' Hkey'. rewrite Hperm in Hkey'.
      apply elem_of_keys in Hkey' as [c' Hkey']. exists c'. split; [done|].
      destruct (construct c' context None) as [e'|debugger] eqn:Hc'.
      - erewrite bind_inl; [done|]. erewrite load_found by done.
        by rewrite Hc'.
      - erewrite bind_inr; [done|]. erewrite load_found by done.
        by rewrite Hc'. }
    destruct (mapM_stops
                (λ key, debugger ← load src context key None;
                        mret (snapshot key debugger))
                (sorted (keys d)) p') as (key' & e' & Hkey' & He' & Hrun).
    { intros key' Hkey'. destruct (Hload key' Hkey') as (c' & _ & ->). done. }
    { exists key, e. split.
      - rewrite Hperm. apply elem_of_keys. by eexists.
      - destruct (Hload key) as (c' & Hc' & ->).
        + rewrite Hperm. apply elem_of_keys. by eexists.
        + assert (c' = c) as -> by congruence. by rewrite He. }
    destruct (Hload key' Hkey') as (c' & Hc' & Hf). rewrite Hf in He'.
    rewrite <- Hunfold in Hrun.
    exists key', c', e'. split_and!; [done| |done|].
    + simpl in He'. destruct (construct c' context None); congruence.
    + unfold list_. by rewrite (bind_inl _ _ _ _ _ Hrun).
Qed.

(** ** Collisions *)

Lemma registered_mono (a : nat) (S S' : PyClass → Prop) (p : Process) :
  (∀ c, S' c → S c) → registered a S p → registered a S' p.
Proof. intros HS (d & Hd & Hall). exists d. split; [done|]. eauto. Qed.

Lemma for_registered {A} (a : nat) (cls : A → PyClass → Prop)
    (body : A → M unit) (l : list A) :
  (∀ x S p, x ∈ l → registered a S p →
     step_ok a (λ c, S c ∨ cls x c) (body x p)) →
  ∀ S p, registered a S p →
    step_ok a (λ c, S c ∨ ∃ x, x ∈ l ∧ cls x c) (for_ l body p).
Proof.
  induction l as [|x l IH]; intros Hbody S p Hp; simpl.
  - eapply registered_mono; [|done]. intros c [?|(x & Hx & _)]; [done|].
    by apply not_elem_of_nil in Hx.
  - unfold mbind, M_bind.
    pose proof (Hbody x S p (list_elem_of_here _ _) Hp) as Hx.
    destruct (body x p) as [[e|[]] p']; simpl in Hx; [done|].
    assert (step_ok a (λ c, (S c ∨ cls x c) ∨ ∃ y, y ∈ l ∧ cls y c)
                    (for_ l body p')) as Hl.
    { apply IH; [|done]. intros y S' q Hy. apply Hbody. by right. }
    destruct (for_ l body p') as [[e|[]] p'']; simpl in *; [done|].
    eapply registered_mono; [|done].
    intros c [?|(y & [->|Hy]%elem_of_cons & Hc)]; eauto.
Qed.

Lemma register_registered (a : nat) (c : PyClass) (S : PyClass → Prop)
    (p : Process) :
  registered a S p →
  step_ok a (λ c', S c' ∨ c' = c) (register a c p).
Proof.
  intros (d & Hd & Hall). unfold register.
  destruct (is_debugger c) eqn:Hdbg; simpl.
  2: { exists d. split; [done|]. intros c' key [?| ->]; [eauto|congruence]. }
  destruct (get_option_name c) as [key|] eqn:Hkey; simpl.
  2: { exists d. split; [done|]. intros c' key [?| ->]; [eauto|congruence]. }
  run. rewrite Hd; simpl.
  destruct (d !! key) as [c0|] eqn:Hc0.
  - case_bool_decide as Hname; simpl; [|by eexists].
    exists d. split; [done|]. intros c' key' [?| ->]; [eauto|].
    intros _ Hkey'. assert (key' = key) as -> by congruence. eauto.
  - simpl. exists (<[key:=c]> d). split.
    + apply list_lookup_insert_eq. by eapply lookup_lt_Some.
    + intros c' key' [HS| ->] Hdbg' Hkey'.
      * destruct (Hall c' key' HS Hdbg' Hkey') as (c0 & Hc0' & Hn).
        exists c0. split; [|done].
        rewrite lookup_insert_ne; [done|]. intros ->. congruence.
      * assert (key' = key) as -> by congruence.
        exists c. split; [|done]. apply lookup_insert_eq.
Qed.


Lemma scan_module_registered (src : Sources) (a : nat) (dir_ m : string)
    (S : PyClass → Prop) (p : Process) :
  imports_fail_softly src →
  registered a S p →
  step_ok a (λ c, S c ∨ ∃ members, load_module src dir_ m = inr members
                                   ∧ c ∈ members)
          (scan_module src a dir_ m p).
Proof.
  intros Hsoft Hp. unfold scan_module. run.
  match goal with |- context [mkProcess ?h ?g ?c ?l] =>
    assert (registered a S (mkProcess h g c l)) as Hq by exact Hp;
    generalize dependent (mkProcess h g c l); intros q Hq
  end.
  destruct (load_module src dir_ m) as [e|members] eqn:Hload.
  - rewrite (Hsoft _ _ _ Hload); simpl.
    eapply registered_mono; [|done]. by intros c [?|(? & [=] & _)].
  - pose proof (for_registered a (λ c c', c' = c) (register a) members
                  (λ c S' p' _, register_registered a c S' p') S q Hq) as Hfor.
    destruct (for_ members (register a) q) as [[e|[]] q']; simpl in *;
      [done|].
    eapply registered_mono; [|done].
    intros c [?|(members' & [= <-] & Hc)]; [by left|]. right. eauto.
Qed.

Lemma scan_registered (src : Sources) (a : nat) (S : PyClass → Prop)
    (p : Process) :
  imports_fail_softly src →
  registered a S p →
  step_ok a (λ c, S c ∨ candidate src c)
    (for_ (os_walk src) (λ '(dir_, files),
       for_ (potential_modules files) (scan_module src a dir_)) p).
Proof.
  intros Hsoft Hp.
  pose proof (for_registered a
    (λ '(dir_, files) c, ∃ m, m ∈ potential_modules files
       ∧ ∃ members, load_module src dir_ m = inr members ∧ c ∈ members)
    (λ '(dir_, files),
       for_ (potential_modules files) (scan_module src a dir_))
    (os_walk src)) as Hwalk.
  match type of Hwalk with ?P → _ => assert P as Hbody end.
  { intros [dir_ files] S' q _ Hq.
    apply (for_registered a
             (λ m c, ∃ members, load_module src dir_ m = inr members
                                ∧ c ∈ members)); [|done].
    intros m S'' q' _. by apply scan_module_registered. }
  specialize (Hwalk Hbody S p Hp).
  destruct (for_ (os_walk src) _ p) as [[e|[]] p']; simpl in *; [done|].
  eapply registered_mono; [|done].
  intros c [?|(dir_ & files & m & members & ? & ? & ? & ?)]; [by left|].
  right. exists (dir_, files). split; [done|]. eauto.
Qed.

(** Two backend classes of the scanned modules that report one key under
    different class names make the first discovery fail its assertion. *)
Lemma discovery_collision (src : Sources) (h : list (gmap string PyClass))
    (lg : list ScanEvent) (c1 c2 : PyClass) (key : string) :
  imports_fail_softly src →
  candidate src c1 → candidate src c2 →
  is_debugger c1 = true → is_debugger c2 = true →
  get_option_name c1 = Some key → get_option_name c2 = Some key →
  cls_name c1 ≠ cls_name c2 →
  ∃ args p', _get_potential_debuggers src (mkProcess h None None lg)
             = (inl (AssertionError args), p').
Proof.
  intros Hsoft Hc1 Hc2 Hd1 Hd2 Hk1 Hk2 Hne.
  unfold _get_potential_debuggers. run.
  match goal with |- context [for_ _ _ ?q] =>
    pose proof (scan_registered src (length h) (λ _, False) q Hsoft) as Hscan;
    destruct (for_ (os_walk src) _ q) as [[e|[]] p'] eqn:Hrun
  end; simpl in *.
  - destruct Hscan as [args ->].
    + exists ∅. split; [apply list_lookup_middle; done|]. by intros.
    + eauto.
  - exfalso. destruct Hscan as (d & _ & Hall).
    + exists ∅. split; [apply list_lookup_middle; done|]. by intros.
    + destruct (Hall c1 key (or_intror Hc1) Hd1 Hk1) as (c0 & Hc0 & Hn1).
      destruct (Hall c2 key (or_intror Hc2) Hd2 Hk2) as (c0' & Hc0' & Hn2).
      congruence.
Qed.

Lemma register_same_name (cached : nat) (c c0 : PyClass) (key : string)
    (d : gmap string PyClass) (p : Process) :
  is_debugger c = true → get_option_name c = Some key →
  heap p !! cached = Some d → d !! key = Some c0 →
  cls_name c0 = cls_name c →
  register cached c p = (inr (), p).
Proof.
  intros Hdbg Hkey Hd Hc0 Hname. unfold register. rewrite Hdbg, Hkey.
  run. rewrite Hd; simpl. rewrite Hc0.
  by rewrite bool_decide_eq_true_2.
Qed.

Lemma register_other_name (cached : nat) (c c0 : PyClass) (key : string)
    (d : gmap string PyClass) (p : Process) :
  is_debugger c = true → get_option_name c = Some key →
  heap p !! cached = Some d → d !! key = Some c0 →
  cls_name c0 ≠ cls_name c →
  register cached c p
  = (inl (AssertionError [key; cls_name c0; cls_name c]), p).
Proof.
  intros Hdbg Hkey Hd Hc0 Hname. unfold register. rewrite Hdbg, Hkey.
  run. rewrite Hd; simpl. rewrite Hc0.
  by rewrite bool_decide_eq_false_2.
Qed.

(** C5 as stated fails: discovery finds the keys [gdb] and [lldb], the
    constructor of the [gdb] backend raises, and the exception leaves both
    the snapshot and the listing; no entry is produced, not even for
    [lldb]. *)
Lemma listing_aborts_when_constructor_raises :
  (∃ p' d, potential_debuggers broken_sources fresh = (inr 0%nat, p')
           ∧ heap p' !! 0%nat = Some d
           ∧ sorted (keys d) = ["gdb"; "lldb"])
  ∧ (_populate_debugger_cache broken_sources ex_context fresh).1
    = inl (Raised "OSError: gdb not found")
  ∧ (list_ broken_sources ex_context fresh).1
    = inl (Raised "OSError: gdb not found").
Proof.
  split_and!.
  - do 2 eexists. split_and!; vm_compute; reflexivity.
  - vm_compute. reflexivity.
  - vm_compute. reflexivity.
Qed.

(** The listing of a working [lldb] and an unavailable [vs2015], and the
    listing that the constructor of [gdb] interrupts. *)
Lemma snapshot_complete_witness :
  (let d : gmap string PyClass :=
     <["vs2015" := vs2015_class]> {["lldb" := lldb_class]} in
   ∃ entries,
     _populate_debugger_cache working_sources ex_context fresh
     = (inr entries, (potential_debuggers working_sources fresh).2)
     ∧ option_name <$> entries = sorted (keys d)
     ∧ option_name <$> entries ≡ₚ keys d
     ∧ NoDup (option_name <$> entries)
     ∧ Forall (λ e, ∃ c debugger,
                 d !! option_name e = Some c
                 ∧ construct c ex_context None = inr debugger
                 ∧ describes (option_name e) debugger e) entries)
  ∧ (let d : gmap string PyClass :=
       <["gdb" := gdb_class]> {["lldb" := lldb_class]} in
     ∃ key c e,
       d !! key = Some c ∧ construct c ex_context None = inl e
       ∧ _populate_debugger_cache broken_sources ex_context fresh
         = (inl e, (potential_debuggers broken_sources fresh).2)
       ∧ list_ broken_sources ex_context fresh
         = (inl e, (potential_debuggers broken_sources fresh).2)).
Proof.
  split.
  - refine (proj1 (snapshot_complete working_sources ex_context fresh
                     (potential_debuggers working_sources fresh).2 0%nat
                     _ _ _) _).
    + vm_compute. reflexivity.
    + vm_compute. reflexivity.
    + apply map_Forall_insert_2; [by eexists|].
      apply map_Forall_singleton. by eexists.
  - refine (proj2 (snapshot_complete broken_sources ex_context fresh
                     (potential_debuggers broken_sources fresh).2 0%nat
                     _ _ _) _).
    + vm_compute. reflexivity.
    + vm_compute. reflexivity.
    + exists "gdb", gdb_class, (Raised "OSError: gdb not found").
      split; [apply lookup_insert_eq|reflexivity].
Defined.

(** C6, as the code has it.  A backend class [c2] reports a key under
    which [c1] is cached: when the two have the same [__name__] the
    registration changes nothing, whether or not they are the same class;
    when the names differ the assertion fails with the cache as it was.
    In a first discovery, two scanned backend classes with one key and
    different names end the call with this [AssertionError]. *)
Theorem collision_by_class_name (src : Sources)
    (h : list (gmap string PyClass)) (lg : list ScanEvent)
    (c1 c2 : PyClass) (key : string) :
  is_debugger c1 = true → is_debugger c2 = true →
  get_option_name c1 = Some key → get_option_name c2 = Some key →
  (∀ cached d p, heap p !! cached = Some d → d !! key = Some c1 →
     (cls_name c1 = cls_name c2 → register cached c2 p = (inr (), p))
     ∧ (cls_name c1 ≠ cls_name c2 →
        register cached c2 p
        = (inl (AssertionError [key; cls_name c1; cls_name c2]), p)))
  ∧ (imports_fail_softly src → candidate src c1 → candidate src c2 →
     cls_name c1 ≠ cls_name c2 →
     ∃ args p', _get_potential_debuggers src (mkProcess h None None lg)
                = (inl (AssertionError args), p')).
Proof.
  intros Hd1 Hd2 Hk1 Hk2. split.
  - intros cached d p Hd Hc1. split; intros Hname.
    + by apply (register_same_name cached c2 c1 key d p).
    + by apply (register_other_name cached c2 c1 key d p).
  - intros Hsoft Hc1 Hc2 Hname.
    by apply (discovery_collision src h lg c1 c2 key).
Qed.

Lemma package_imports_fail_softly (mods : list (string * list PyClass)) :
  imports_fail_softly (package mods).
Proof.
  intros dir_ m e. unfold package; simpl.
  destruct (list_find _ mods) as [[i [m' members]]|]; [done|].
  by intros [= <-].
Qed.

Lemma package_candidate (mods : list (string * list PyClass)) (m : string)
    (members : list PyClass) (c : PyClass) :
  ("dex/debugger/" +:+ m, ["__init__.py"; m +:+ ".py"]) ∈ os_walk (package mods) →
  potential_modules ["__init__.py"; m +:+ ".py"] = [m] →
  load_module (package mods) ("dex/debugger/" +:+ m) m = inr members →
  c ∈ members →
  candidate (package mods) c.
Proof.
  intros Hwalk Hmods Hload Hc.
  exists ("dex/debugger/" +:+ m), ["__init__.py"; m +:+ ".py"], m, members.
  split_and!; try done. rewrite Hmods. apply list_elem_of_here.
Qed.

(** [LLDB] and [LLDBNext] both answer to the key [lldb]. *)
Lemma collision_by_class_name_witness :
  register 0 lldb_next_class
           (mkProcess [{["lldb" := lldb_class]}] (Some 0%nat) None [])
  = (inl (AssertionError ["lldb"; "LLDB"; "LLDBNext"]),
     mkProcess [{["lldb" := lldb_class]}] (Some 0%nat) None [])
  ∧ ∃ args p', _get_potential_debuggers clash_sources fresh
               = (inl (AssertionError args), p').
Proof.
  destruct (collision_by_class_name clash_sources [] [] lldb_class
              lldb_next_class "lldb" eq_refl eq_refl eq_refl eq_refl)
    as [Hregister Hdiscovery].
  split.
  - apply (Hregister 0%nat {["lldb" := lldb_class]}); [done| |done].
    apply lookup_singleton_eq.
  - apply Hdiscovery.
    + apply package_imports_fail_softly.
    + apply (package_candidate _ "LLDB" [base_class; lldb_class]);
        [vm_compute; apply list_elem_of_further, list_elem_of_here
        |reflexivity|reflexivity
        |apply list_elem_of_further, list_elem_of_here].
    + apply (package_candidate _ "LLDBNext" [base_class; lldb_next_class]);
        [vm_compute;
         apply list_elem_of_further, list_elem_of_further, list_elem_of_here
        |reflexivity|reflexivity
        |apply list_elem_of_further, list_elem_of_here].
    + discriminate.
Defined.

(** C6 as stated fails: two different implementations, both scanned and
    both answering to [lldb], do not make discovery fail when their class
    names are equal; the second one is dropped. *)
Lemma same_name_collision_is_silent :
  cls_id lldb_class ≠ cls_id lldb_twin_class
  ∧ construct lldb_class ex_context None
    ≠ construct lldb_twin_class ex_context None
  ∧ get_option_name lldb_class = Some "lldb"
  ∧ get_option_name lldb_twin_class = Some "lldb"
  ∧ candidate twin_sources lldb_class
  ∧ candidate twin_sources lldb_twin_class
  ∧ ∃ p', _get_potential_debuggers twin_sources fresh = (inr 0%nat, p')
          ∧ heap p' !! 0%nat = Some {["lldb" := lldb_class]}.
Proof.
  split_and!; try done.
  - apply (package_candidate _ "LLDB" [base_class; lldb_class]);
      [vm_compute; apply list_elem_of_further, list_elem_of_here
      |reflexivity|reflexivity
      |apply list_elem_of_further, list_elem_of_here].
  - apply (package_candidate _ "LLDBLegacy" [base_class; lldb_twin_class]);
      [vm_compute;
       apply list_elem_of_further, list_elem_of_further, list_elem_of_here
      |reflexivity|reflexivity
      |apply list_elem_of_further, list_elem_of_here].
  - eexists. split; vm_compute; reflexivity.
Qed.

End RegistryFacts.

(** * More on the step trace *)

Section StepTraceMore.
Import DextIR.
Open Scope list_scope.
Context `{LocCompare}.

Lemma new_step_fields (self : t) (step : StepIR) :
  let self' := (new_step self step).2 in
  dexter_version self' = dexter_version self
  ∧ executable_path self' = executable_path self
  ∧ source_paths self' = source_paths self
  ∧ builder self' = builder self
  ∧ debugger self' = debugger self
  ∧ commands self' = commands self
  ∧ num_steps self' = S (num_steps self).
Proof.
  simpl. split_and!; try done.
  unfold num_steps; simpl. rewrite length_app; simpl. lia.
Qed.

Lemma new_steps_cons (self : t) (step : StepIR) (l : list StepIR) :
  new_steps self (step :: l) = new_steps (new_step self step).2 l.
Proof. reflexivity. Qed.

(** X1.  Appending any sequence of steps changes nothing but [steps]: the
    six other fields stay, the number of steps grows by the number of steps
    appended, and clearing afterwards gives the cleared original. *)
Theorem new_steps_frame (self : t) (l : list StepIR) :
  let self' := new_steps self l in
  dexter_version self' = dexter_version self
  ∧ executable_path self' = executable_path self
  ∧ source_paths self' = source_paths self
  ∧ builder self' = builder self
  ∧ debugger self' = debugger self
  ∧ commands self' = commands self
  ∧ num_steps self' = (num_steps self + length l)%nat
  ∧ clear_steps self' = clear_steps self.
Proof.
  revert self. induction l as [|step l IH]; intros self.
  - cbv zeta. unfold new_steps; simpl. split_and!; try done; lia.
  - cbv zeta. rewrite new_steps_cons.
    destruct (IH (new_step self step).2)
      as (H1 & H2 & H3 & H4 & H5 & H6 & H7 & H8).
    destruct (new_step_fields self step)
      as (G1 & G2 & G3 & G4 & G5 & G6 & G7).
    cbv zeta in *. split_and!; try congruence.
    + rewrite H7, G7. simpl length. lia.
    + by rewrite H8.
Qed.

(** X2.  The step that [new_step] stores has no [step_kind] exactly when it
    came without one, has the function of the last step, and none of
    [==], [>], [<] holds between the two locations. *)
Theorem new_step_unset_iff (self : t) (step : StepIR) :
  step_kind (new_step self step).1 = None
  ↔ step_kind step = None
    ∧ ∃ prev f, last (steps self) = Some prev
        ∧ current_function step = Some f
        ∧ current_function prev = Some f
        ∧ loc_eq (current_location prev) (current_location step) = false
        ∧ loc_gt (current_location prev) (current_location step) = false
        ∧ loc_lt (current_location prev) (current_location step) = false.
Proof.
  split.
  - unfold new_step; simpl.
    destruct (current_function step) as [f|] eqn:Hf; [|done].
    destruct (last (steps self)) as [prev|] eqn:Hlast; [|done].
    case_bool_decide as Hnone; [done|].
    case_bool_decide as Hne; [done|].
    destruct (loc_eq _ _) eqn:Heq; [done|].
    destruct (loc_gt _ _) eqn:Hgt; [done|].
    destruct (loc_lt _ _) eqn:Hlt; [done|].
    intros Hk. split; [done|]. exists prev, f.
    by split_and!.
  - intros (Hk & prev & f & Hlast & Hf & Hprev & Heq & Hgt & Hlt).
    unfold new_step; simpl. rewrite Hf, Hlast, Hprev, Heq, Hgt, Hlt.
    rewrite bool_decide_eq_false_2 by done.
    rewrite bool_decide_eq_false_2 by (intros Hne; by apply Hne).
    done.
Qed.

Lemma _step_kind_func_range (source_paths : list string) (step : StepIR) :
  _step_kind_func source_paths step = FUNC
  ∨ _step_kind_func source_paths step = FUNC_UNKNOWN
  ∨ _step_kind_func source_paths step = FUNC_EXTERNAL.
Proof. unfold _step_kind_func. repeat case_match; auto. Qed.

(** X3.  The decision table read backwards: the kind assigned to a step
    that came without one tells which branch was taken, hence what the
    step and the last step of the trace look like. *)
Theorem new_step_kind_inv (self : t) (step : StepIR) (k : StepKind) :
  step_kind step = None →
  step_kind (new_step self step).1 = Some k →
  match k with
  | UNKNOWN =>
      current_function step = None
      ∨ ∃ prev, last (steps self) = Some prev ∧ current_function prev = None
  | FUNC | FUNC_EXTERNAL | FUNC_UNKNOWN =>
      k = _step_kind_func (source_paths self) step
      ∧ is_Some (current_function step)
      ∧ (steps self = []
         ∨ ∃ prev, last (steps self) = Some prev
                   ∧ is_Some (current_function prev)
                   ∧ current_function prev ≠ current_function step)
  | SAME | BACKWARD | FORWARD =>
      ∃ prev, last (steps self) = Some prev
        ∧ is_Some (current_function step)
        ∧ current_function prev = current_function step
        ∧ let eq := loc_eq (current_location prev) (current_location step) in
          let gt := loc_gt (current_location prev) (current_location step) in
          let lt := loc_lt (current_location prev) (current_location step) in
          match k with
          | SAME => eq = true
          | BACKWARD => eq = false ∧ gt = true
          | _ => eq = false ∧ gt = false ∧ lt = true
          end
  end.
Proof.
  intros Hfresh. unfold new_step; simpl.
  destruct (current_function step) as [f|] eqn:Hf.
  2: { intros [= <-]. by left. }
  destruct (last (steps self)) as [prev|] eqn:Hlast.
  2: { apply last_None in Hlast. simpl. intros [= <-].
       destruct (_step_kind_func_range (source_paths self) step)
         as [Hr|[Hr|Hr]]; rewrite Hr;
         (split_and!; [done|by eexists|by left]). }
  case_bool_decide as Hnone.
  { intros [= <-]. right. by exists prev. }
  case_bool_decide as Hne.
  { simpl. intros [= <-].
    assert (is_Some (current_function prev)) as Hsome.
    { by destruct (current_function prev). }
    destruct (_step_kind_func_range (source_paths self) step)
      as [Hr|[Hr|Hr]]; rewrite Hr;
      (split_and!; [done|by eexists|right; by exists prev]). }
  assert (current_function prev = Some f) as Hprev.
  { destruct (decide (current_function prev = Some f)); [done|].
    by destruct Hne. }
  destruct (loc_eq _ _) eqn:Heq.
  { intros [= <-]. exists prev. by split_and!. }
  destruct (loc_gt _ _) eqn:Hgt.
  { intros [= <-]. exists prev. by split_and!. }
  destruct (loc_lt _ _) eqn:Hlt.
  { intros [= <-]. exists prev. by split_and!. }
  by rewrite Hfresh.
Qed.


Lemma new_steps_snoc (self : t) (l : list StepIR) (step : StepIR) :
  new_steps self (l ++ [step]) = (new_step (new_steps self l) step).2.
Proof. unfold new_steps. by rewrite foldl_app. Qed.

Lemma is_func_kind_func (source_paths : list string) (step : StepIR) :
  Rendering.is_func_kind (Some (_step_kind_func source_paths step)) = true.
Proof.
  by destruct (_step_kind_func_range source_paths step) as [->|[->| ->]].
Qed.

Lemma new_step_consistent (self : t) (step : StepIR) :
  step_kind step = None →
  match last (steps self) with
  | None => Rendering.consistent_head (new_step self step).1
  | Some prev => Rendering.consistent_pair prev (new_step self step).1
  end.
Proof.
  intros Hfresh.
  destruct (new_step_keeps self step) as [Hfun _].
  unfold Rendering.consistent_head, Rendering.consistent_pair.
  rewrite Hfun. unfold new_step; simpl.
  destruct (current_function step) as [f|] eqn:Hf.
  2: { destruct (last (steps self)); simpl; split; split; try done;
         try (intros (? & ? & ?); done); try (by intros [? ?]); auto. }
  destruct (last (steps self)) as [prev|] eqn:Hlast; simpl.
  2: { rewrite is_func_kind_func. split; split; try done.
       destruct (_step_kind_func_range (source_paths self) step)
         as [->|[->| ->]]; done. }
  case_bool_decide as Hnone; simpl.
  { rewrite Hnone. split; split; try done; auto.
    intros (_ & [? ?] & _). done. }
  assert (is_Some (current_function prev)) as Hsome.
  { by destruct (current_function prev). }
  case_bool_decide as Hne; simpl.
  { rewrite is_func_kind_func. split; split; try done.
    - destruct (_step_kind_func_range (source_paths self) step)
        as [->|[->| ->]]; done.
    - intros [?|Hp]; [done|]. rewrite Hp in Hsome. by destruct Hsome. }
  assert (current_function prev = Some f) as Hprev.
  { destruct (decide (current_function prev = Some f)); [done|].
    by destruct Hne. }
  assert (∀ s', (step_kind s' = Some SAME ∨ step_kind s' = Some BACKWARD
                 ∨ step_kind s' = Some FORWARD ∨ step_kind s' = None) →
    (Rendering.is_func_kind (step_kind s') = true
     ↔ is_Some (Some f) ∧ is_Some (current_function prev)
       ∧ current_function prev ≠ Some f)
    ∧ (step_kind s' = Some UNKNOWN
       ↔ Some f = None ∨ current_function prev = None)) as Hrest.
  { intros s' Hs'. split; split.
    - destruct Hs' as [->|[->|[->| ->]]]; done.
    - intros (_ & _ & Hd). done.
    - destruct Hs' as [->|[->|[->| ->]]]; done.
    - intros [?|Hp]; [done|]. congruence. }
  apply Hrest. repeat case_match; simpl; auto.
Qed.

Lemma built_consistent (self : t) (l : list StepIR) :
  Forall (λ s, step_kind s = None) l →
  let built := steps (new_steps (clear_steps self) l) in
  current_function <$> built = current_function <$> l
  ∧ current_location <$> built = current_location <$> l
  ∧ (∀ s, built !! 0%nat = Some s → Rendering.consistent_head s)
  ∧ (∀ i p s, built !! i = Some p → built !! S i = Some s →
       Rendering.consistent_pair p s).
Proof.
  induction l as [|step l IH] using rev_ind; intros Hfresh.
  { simpl. by split_and!. }
  apply Forall_app in Hfresh as [Hl Hstep].
  rewrite Forall_singleton in Hstep.
  destruct (IH Hl) as (Hfuns & Hlocs & Hhead & Hpairs). clear IH.
  cbv zeta in *. rewrite new_steps_snoc.
  set (ir := new_steps (clear_steps self) l) in *.
  pose proof (new_step_consistent ir step Hstep) as Hnew.
  destruct (new_step_keeps ir step) as [Hf Hloc].
  rewrite new_step_stores.
  set (step' := (new_step ir step).1) in *. clearbody step'.
  unfold set_steps; simpl steps.
  split_and!.
  - by rewrite !fmap_app, Hfuns, !fmap_cons, Hf.
  - by rewrite !fmap_app, Hlocs, !fmap_cons, Hloc.
  - intros s Hs. destruct (steps ir) as [|s0 rest] eqn:Hir.
    + simpl in Hs. injection Hs as <-. exact Hnew.
      
    + apply Hhead. by simpl in *.
  - intros i p s Hp Hs.
    destruct (decide (S i < length (steps ir))%nat) as [Hlt|Hge].
    + rewrite lookup_app_l in Hp by lia. rewrite lookup_app_l in Hs by lia.
      by apply (Hpairs i).
    + assert (length (steps ir ++ [step']) = S (length (steps ir))) as Hlen.
      { rewrite length_app. simpl. lia. }
      apply lookup_lt_Some in Hs as Hi. rewrite Hlen in Hi.
      assert (S i = length (steps ir)) as Hlast by lia.
      rewrite lookup_app_r in Hs by lia.
      replace (S i - length (steps ir))%nat with 0%nat in Hs by lia.
      injection Hs as <-.
      rewrite lookup_app_l in Hp by lia.
      assert (last (steps ir) = Some p) as Hlastp.
      { rewrite last_lookup. rewrite <- Hlast. simpl. done. }
      by rewrite Hlastp in Hnew.
Qed.

(** X4.  In a trace built from an empty one by appending steps that came
    without a kind, the kinds agree with the functions of neighbouring
    steps: the first step is a function entry exactly when it has a
    function and [UNKNOWN] exactly when it has none; a later step is a
    function entry exactly when it and its predecessor have different
    functions, and [UNKNOWN] exactly when one of the two has none. *)
Theorem built_trace_consistent (self : t) (l : list StepIR) :
  Forall (λ s, step_kind s = None) l →
  let built := steps (new_steps (clear_steps self) l) in
  current_function <$> built = current_function <$> l
  ∧ current_location <$> built = current_location <$> l
  ∧ (∀ s, built !! 0%nat = Some s → Rendering.consistent_head s)
  ∧ (∀ i p s, built !! i = Some p → built !! S i = Some s →
       Rendering.consistent_pair p s).
Proof. intros Hfresh. by apply built_consistent. Qed.


(** ** Steps as objects *)

Lemma deref_insert_fresh (objects : list StepIR) (refs : list nat) (a : nat)
    (step' : StepIR) :
  a ∉ refs →
  StepObjects.deref (<[a := step']> objects) refs
  = StepObjects.deref objects refs.
Proof.
  intros Hfresh. unfold StepObjects.deref.
  induction refs as [|r refs IH]; [done|].
  apply not_elem_of_cons in Hfresh as [Hne Hfresh].
  csimpl. rewrite list_lookup_insert_ne by done.
  specialize (IH Hfresh). by rewrite IH.
Qed.

Lemma deref_snoc (objects : list StepIR) (refs : list nat) (a : nat)
    (step : StepIR) :
  objects !! a = Some step →
  StepObjects.deref objects (refs ++ [a])
  = StepObjects.deref objects refs ++ [step].
Proof.
  intros Ha. unfold StepObjects.deref. rewrite omap_app. simpl.
  by rewrite Ha.
Qed.

(** X5.  When the step object handed to [new_step] is not yet in the
    trace, the call changes no step that the trace already holds: the trace
    read afterwards is the trace read before, followed by the classified
    step. *)
Theorem new_step_obj_fresh (self : t) (objects : list StepIR)
    (refs : list nat) (a : nat) (step : StepIR) :
  objects !! a = Some step →
  a ∉ refs →
  ∃ objects' refs',
    StepObjects.new_step_obj self objects refs a = Some (objects', refs')
    ∧ StepObjects.deref objects' refs'
      = StepObjects.deref objects refs
        ++ [(new_step (StepObjects.view objects refs self) step).1]
    ∧ StepObjects.view objects' refs' self
      = (new_step (StepObjects.view objects refs self) step).2.
Proof.
  intros Ha Hfresh.
  exists (<[a := (new_step (StepObjects.view objects refs self) step).1]>
            objects), (refs ++ [a]).
  split; [unfold StepObjects.new_step_obj; by rewrite Ha|].
  assert (StepObjects.deref
            (<[a := (new_step (StepObjects.view objects refs self) step).1]>
               objects) (refs ++ [a])
          = StepObjects.deref objects refs
            ++ [(new_step (StepObjects.view objects refs self) step).1])
    as Hderef.
  { erewrite deref_snoc.
    - by rewrite deref_insert_fresh.
    - apply list_lookup_insert_eq. by eapply lookup_lt_Some. }
  split; [done|].
  match goal with |- StepObjects.view ?o ?r self = _ =>
    transitivity (set_steps (StepObjects.deref o r) self); [done|]
  end.
  rewrite Hderef. reflexivity.
Qed.

Lemma new_step_after_itself (self : t) (step : StepIR) (f : string) :
  last (steps self) = Some step →
  current_function step = Some f →
  loc_eq (current_location step) (current_location step) = true →
  (new_step self step).1 = set_step_kind SAME step.
Proof.
  intros Hlast Hf Heq. unfold new_step. rewrite Hf, Hlast, Hf, Heq.
  rewrite bool_decide_eq_false_2 by done.
  rewrite bool_decide_eq_false_2 by (intros Hne; by apply Hne).
  done.
Qed.

(** X6.  When the step object handed to [new_step] is the one the trace
    ends with, has a function, and its location equals itself, the object
    is classified against itself: it becomes [SAME], and since the trace
    holds the same object twice, the kind it stored before is overwritten
    too. *)
Theorem new_step_obj_again (self : t) (objects : list StepIR)
    (refs : list nat) (a : nat) (step : StepIR) :
  objects !! a = Some step →
  a ∉ refs →
  is_Some (current_function step) →
  loc_eq (current_location step) (current_location step) = true →
  ∃ objects',
    StepObjects.new_step_obj self objects (refs ++ [a]) a
    = Some (objects', refs ++ [a; a])
    ∧ StepObjects.deref objects (refs ++ [a])
      = StepObjects.deref objects refs ++ [step]
    ∧ StepObjects.deref objects' (refs ++ [a; a])
      = StepObjects.deref objects refs
        ++ [set_step_kind SAME step; set_step_kind SAME step].
Proof.
  intros Ha Hfresh [f Hf] Heq.
  assert ((new_step (StepObjects.view objects (refs ++ [a]) self) step).1
          = set_step_kind SAME step) as Hkind.
  { apply (new_step_after_itself _ _ f); [|done..].
    change (steps (StepObjects.view objects (refs ++ [a]) self))
      with (StepObjects.deref objects (refs ++ [a])).
    by rewrite (deref_snoc _ _ _ _ Ha), last_snoc. }
  exists (<[a := set_step_kind SAME step]> objects).
  split.
  { unfold StepObjects.new_step_obj. rewrite Ha. cbn [mbind option_bind].
    by rewrite Hkind, <- app_assoc. }
  split; [by apply deref_snoc|].
  assert (<[a := set_step_kind SAME step]> objects !! a
          = Some (set_step_kind SAME step)) as Ha'.
  { apply list_lookup_insert_eq. by eapply lookup_lt_Some. }
  replace (refs ++ [a; a]) with ((refs ++ [a]) ++ [a])
    by (by rewrite <- app_assoc).
  rewrite !(deref_snoc _ _ _ _ Ha'), deref_insert_fresh by done.
  by rewrite <- app_assoc.
Qed.

End StepTraceMore.

(** * The rendering of a trace *)

Section RenderingFacts.
Import DextIR Rendering.

Lemma colored_length (k : nat) (l : list StepIR) :
  length (colored k l) = length l.
Proof. revert k. induction l as [|s l IH]; intros k; simpl; [done|]. by rewrite IH. Qed.

Lemma colored_lookup (k : nat) (l : list StepIR) (i : nat) (step : StepIR) :
  l !! i = Some step →
  colored k l !! i = Some (color_at (k + entries (take (S i) l)), step).
Proof.
  revert k i. induction l as [|s l IH]; intros k i Hi; [done|].
  destruct i as [|i]; simpl in *.
  - injection Hi as ->. unfold entries. simpl. rewrite take_0.
    destruct (is_func_kind (step_kind step)) eqn:Hk.
    + rewrite filter_cons_True by done. simpl. do 3 f_equal. lia.
    + rewrite filter_cons_False by (by rewrite Hk). simpl.
      do 3 f_equal. lia.
  - rewrite (IH _ _ Hi). unfold entries.
    destruct (is_func_kind (step_kind s)) eqn:Hk.
    + rewrite (filter_cons_True _ s) by done. simpl. do 3 f_equal. lia.
    + rewrite (filter_cons_False _ s) by (by rewrite Hk). done.
Qed.

(** X7.  In the rendering, the colour of a step is the letter of [rgby]
    at the number of function entries up to and including the step, taken
    modulo four: a trace starts in [r] and every function entry moves one
    letter on. *)
Theorem step_color (self : t) (i : nat) (step : StepIR) :
  steps self !! i = Some step →
  colored 0 (steps self) !! i
  = Some (color_at (entries (take (S i) (steps self))), step).
Proof. intros Hi. by rewrite (colored_lookup 0 _ _ _ Hi). Qed.

Lemma color_at_succ (k : nat) : color_at (S k) ≠ color_at k.
Proof.
  unfold color_at. simpl String.length.
  pose proof (Nat.mod_upper_bound k 4 ltac:(lia)) as Hk.
  replace (S k) with (k + 1)%nat by lia.
  rewrite <- (Nat.Div0.add_mod_idemp_l k 1 4).
  destruct (k mod 4)%nat as [|[|[|[|]]]]; try lia; done.
Qed.

Lemma colored_adjacent (l : list StepIR) (i : nat) (c1 c2 : ascii)
    (s1 s2 : StepIR) :
  colored 0 l !! i = Some (c1, s1) →
  colored 0 l !! S i = Some (c2, s2) →
  l !! i = Some s1 ∧ l !! S i = Some s2
  ∧ (c1 = c2 ↔ is_func_kind (step_kind s2) = false).
Proof.
  intros H1 H2.
  assert (∃ t1, l !! i = Some t1) as [t1 Ht1].
  { apply lookup_lt_is_Some. rewrite <- (colored_length 0).
    by eapply lookup_lt_Some. }
  assert (∃ t2, l !! S i = Some t2) as [t2 Ht2].
  { apply lookup_lt_is_Some. rewrite <- (colored_length 0).
    by eapply lookup_lt_Some. }
  rewrite (colored_lookup 0 _ _ _ Ht1) in H1.
  rewrite (colored_lookup 0 _ _ _ Ht2) in H2.
  injection H1 as <- <-. injection H2 as <- <-.
  split; [done|]. split; [done|].
  rewrite (take_S_r _ (S i) t2) by done.
  unfold entries. rewrite filter_app, length_app. simpl.
  destruct (is_func_kind (step_kind t2)) eqn:Hk.
  - rewrite filter_cons_True by done. simpl.
    split; [|done]. intros Heq. exfalso.
    replace (length (filter _ (take (S i) l)) + 1)%nat
      with (S (length (filter (λ s, is_func_kind (step_kind s) = true)
                              (take (S i) l)))) in Heq by lia.
    by destruct (color_at_succ _ (eq_sym Heq)).
  - rewrite filter_cons_False by (by rewrite Hk). simpl.
    rewrite Nat.add_0_r. done.
Qed.

(** X8.  Two consecutive steps are rendered in the same colour exactly
    when the second one is not a function entry. *)
Theorem run_boundary (self : t) (i : nat) (c1 c2 : ascii) (s1 s2 : StepIR) :
  colored 0 (steps self) !! i = Some (c1, s1) →
  colored 0 (steps self) !! S i = Some (c2, s2) →
  c1 = c2 ↔ is_func_kind (step_kind s2) = false.
Proof. intros H1 H2. by apply (colored_adjacent _ _ _ _ _ _ H1 H2). Qed.

(** X9.  In the rendering of a trace built from an empty one by
    appending steps that came without a kind, the colour changes from one
    step to the next exactly when both steps have a function and the two
    functions differ. *)
Theorem built_trace_colors `{LocCompare} (self : t) (l : list StepIR)
    (i : nat) (c1 c2 : ascii) (s1 s2 : StepIR) :
  Forall (λ s, step_kind s = None) l →
  let built := steps (new_steps (clear_steps self) l) in
  colored 0 built !! i = Some (c1, s1) →
  colored 0 built !! S i = Some (c2, s2) →
  c1 ≠ c2
  ↔ is_Some (current_function s1) ∧ is_Some (current_function s2)
    ∧ current_function s1 ≠ current_function s2.
Proof.
  intros Hfresh built H1 H2.
  destruct (colored_adjacent _ _ _ _ _ _ H1 H2) as (Hs1 & Hs2 & Hsame).
  destruct (built_consistent self l Hfresh) as (_ & _ & _ & Hpairs).
  destruct (Hpairs i s1 s2 Hs1 Hs2) as [Hentry _].
  rewrite Hsame. rewrite not_false_iff_true, Hentry.
  split; intros (? & ? & ?); by split_and!.
Qed.

End RenderingFacts.

(** * More on the registry *)

Section RegistryMore.
Import Py Debuggers Registry Scan.
Open Scope list_scope.

Ltac step :=
  cbv beta iota zeta delta
    [mbind M_bind mret M_ret raise lift get put log read_dict write_dict
     new_dict set_gpd_cached set_cls_potential_debuggers];
  simpl.

(** ** Which files are imported *)

Lemma prefix_trans (a b c : string) :
  String.prefix a b = true → String.prefix b c = true →
  String.prefix a c = true.
Proof.
  revert b c. induction a as [|x a IH]; intros b c Hab Hbc;
    [by destruct c|].
  destruct b as [|y b]; [done|]. destruct c as [|z c]; [done|].
  simpl in *. destruct (ascii_dec x y) as [->|]; [|done].
  destruct (ascii_dec y z) as [->|]; [|done]. eauto.
Qed.

Lemma prefix_refl (a : string) : String.prefix a a = true.
Proof.
  induction a as [|x a IH]; [done|]. simpl.
  by destruct (ascii_dec x x).
Qed.

Lemma prefix_substring (i : nat) (f : string) :
  String.prefix (String.substring 0 i f) f = true.
Proof.
  revert i. induction f as [|x f IH]; intros [|i]; simpl; try done.
  destruct (ascii_dec x x); [|done]. apply IH.
Qed.

Lemma prefix_splitext_root (f : string) :
  String.prefix (splitext_root f) f = true.
Proof.
  unfold splitext_root. destruct (rfind_dot f) as [i|]; [|apply prefix_refl].
  destruct (all_dots _); [apply prefix_refl|apply prefix_substring].
Qed.

(** X10.  Every module name that discovery tries to import comes from a
    file whose name ends in [.py] and does not start with two underscores,
    and the module name does not start with two underscores either. *)
Theorem potential_modules_sound (files : list string) (m : string) :
  m ∈ potential_modules files →
  startswith m "__" = false
  ∧ ∃ f, f ∈ files ∧ m = splitext_root f
         ∧ endswith f ".py" = true ∧ startswith f "__" = false.
Proof.
  unfold potential_modules. intros Hm.
  apply list_elem_of_fmap in Hm as (f & -> & Hf).
  apply list_elem_of_filter in Hf as [Hf Hin].
  apply andb_true_iff in Hf as [Hpy Hdunder].
  apply negb_true_iff in Hdunder.
  split; [|by exists f].
  destruct (startswith (splitext_root f) "__") eqn:Hs; [|done].
  unfold startswith in *.
  by rewrite (prefix_trans _ _ _ Hs (prefix_splitext_root f)) in Hdunder.
Qed.

(** ** What a scan imports *)

Lemma for_cons_ok {A} (body : A → M unit) (x : A) (l : list A)
    (p p' : Process) :
  body x p = (inr (), p') → for_ (x :: l) body p = for_ l body p'.
Proof. intros Hx. simpl. by rewrite (bind_inr _ _ _ _ _ Hx). Qed.

Lemma for_cons_err {A} (body : A → M unit) (x : A) (l : list A)
    (p p' : Process) (e : exn) :
  body x p = (inl e, p') → for_ (x :: l) body p = (inl e, p').
Proof. intros Hx. simpl. by rewrite (bind_inl _ _ _ _ _ Hx). Qed.

Lemma logs_for {A} (evs : A → list ScanEvent) (body : A → M unit)
    (l : list A) :
  (∀ x, logs (evs x) (body x)) →
  logs (l ≫= evs) (for_ l body).
Proof.
  intros Hbody. induction l as [|x l IH]; intros p.
  - exists []. simpl. by rewrite app_nil_r.
  - destruct (Hbody x p) as (seen & Hlog & Hpre & Hall).
    destruct (body x p) as [[e|[]] p'] eqn:Hx; simpl in Hlog, Hall.
    + rewrite (for_cons_err _ _ _ _ _ _ Hx).
      exists seen. split_and!; [done| |done].
      by apply prefix_app_r.
    + rewrite (for_cons_ok _ _ _ _ _ Hx).
      destruct (IH p') as (seen' & Hlog' & Hpre' & Hall').
      rewrite (Hall eq_refl) in Hlog.
      exists (evs x ++ seen'). split_and!.
      * by rewrite Hlog', Hlog, app_assoc.
      * by apply prefix_app.
      * intros Hok. by rewrite (Hall' Hok).
Qed.

Lemma logs_register (a : nat) (c : PyClass) : logs [] (register a c).
Proof.
  intros p. exists []. rewrite app_nil_r. split_and!; [|done..].
  unfold register.
  destruct (is_debugger c); [|done].
  destruct (get_option_name c) as [key|]; [|done].
  step. destruct (heap p !! a) as [d|]; simpl; [|done].
  destruct (d !! key) as [c0|]; [|done].
  by case_bool_decide.
Qed.

Lemma bind_nil {A} (l : list A) : l ≫= (λ _, @nil ScanEvent) = [].
Proof. induction l as [|x l IH]; [done|]. by simpl. Qed.

Lemma logs_scan_module (src : Sources) (a : nat) (dir_ m : string) :
  logs [LoadModule dir_ m] (scan_module src a dir_ m).
Proof.
  intros p. exists [LoadModule dir_ m]. split_and!; [|done..].
  unfold scan_module. step.
  destruct (load_module src dir_ m) as [e|members].
  - by destruct e.
  - match goal with |- context [for_ _ _ ?q] =>
      destruct (logs_for (λ _, []) (register a) members
                  (logs_register a) q) as (seen & Hlog & Hpre & _)
    end.
    rewrite bind_nil in Hpre. apply prefix_nil_inv in Hpre as ->.
    by rewrite Hlog, app_nil_r.
Qed.

Lemma logs_scan (src : Sources) (a : nat) :
  logs (expected_loads src)
       (for_ (os_walk src) (λ '(dir_, files),
          for_ (potential_modules files) (scan_module src a dir_))).
Proof.
  unfold expected_loads.
  apply (logs_for (λ '(dir_, files),
           m ← potential_modules files; [LoadModule dir_ m])).
  intros [dir_ files].
  apply (logs_for (λ m, [LoadModule dir_ m])).
  intros m. apply logs_scan_module.
Qed.

(** X11.  A first discovery walks the package once and then imports
    potential modules only, in the order of the walk: what it has imported
    when it stops is an initial part of that sequence, and the whole of it
    when the call returns. *)
Theorem first_discovery_log (src : Sources) (h : list (gmap string PyClass))
    (c : option nat) (lg : list ScanEvent) :
  let p := mkProcess h None c lg in
  ∃ seen,
    scan_log (_get_potential_debuggers src p).2 = lg ++ Walk :: seen
    ∧ seen `prefix_of` expected_loads src
    ∧ (∀ a, (_get_potential_debuggers src p).1 = inr a →
         seen = expected_loads src).
Proof.
  intros p. unfold _get_potential_debuggers, p. step.
  match goal with |- context [for_ _ _ ?q] =>
    destruct (logs_scan src (length h) q) as (seen & Hlog & Hpre & Hall);
    destruct (for_ (os_walk src) _ q) as [[e|[]] p'] eqn:Hscan
  end; simpl in *.
  - exists seen. rewrite Hlog, <- app_assoc. by split_and!.
  - exists seen. rewrite Hlog, <- app_assoc. split_and!; [done..|].
    intros _ _. by apply Hall.
Qed.

(** ** What the cache holds *)

Lemma for_invariant {A} (P : Process → Prop) (body : A → M unit)
    (l : list A) :
  (∀ x p, x ∈ l → P p → P (body x p).2) →
  ∀ p, P p → P (for_ l body p).2.
Proof.
  induction l as [|x l IH]; intros Hbody p Hp; [done|].
  pose proof (Hbody x p (list_elem_of_here _ _) Hp) as Hx.
  destruct (body x p) as [[e|[]] p'] eqn:Hbx; simpl in Hx.
  - by rewrite (for_cons_err _ _ _ _ _ _ Hbx).
  - rewrite (for_cons_ok _ _ _ _ _ Hbx).
    apply IH; [|done]. intros y q Hy. apply Hbody. by right.
Qed.

Lemma register_sound (src : Sources) (a : nat) (c : PyClass) (p : Process) :
  candidate src c → sound src a p → sound src a (register a c p).2.
Proof.
  intros Hc (d & Hd & Hall). unfold register.
  destruct (is_debugger c) eqn:Hdbg; [|by exists d].
  destruct (get_option_name c) as [key|] eqn:Hkey; [|by exists d].
  step. rewrite Hd; simpl.
  destruct (d !! key) as [c0|] eqn:Hc0.
  - case_bool_decide; by exists d.
  - simpl. exists (<[key := c]> d). split.
    + apply list_lookup_insert_eq. by eapply lookup_lt_Some.
    + intros key' c'. rewrite lookup_insert.
      case_decide as Hk; [|by apply Hall].
      intros [= <-]. by subst key'.
Qed.

Lemma scan_sound (src : Sources) (a : nat) (p : Process) :
  sound src a p →
  sound src a
    (for_ (os_walk src) (λ '(dir_, files),
       for_ (potential_modules files) (scan_module src a dir_)) p).2.
Proof.
  apply for_invariant. intros [dir_ files] q Hwalk.
  apply for_invariant. intros m q' Hm Hq'.
  unfold scan_module. step.
  match goal with |- context [mkProcess ?h ?g ?c ?l] =>
    assert (sound src a (mkProcess h g c l)) as Hq'' by exact Hq';
    generalize dependent (mkProcess h g c l); intros q'' Hq''
  end.
  destruct (load_module src dir_ m) as [e|members] eqn:Hload.
  - by destruct e.
  - revert q'' Hq''. apply for_invariant. intros c q3 Hc.
    apply register_sound. by exists dir_, files, m, members.
Qed.

(** X12.  Whatever a first discovery does, return or raise, the cache it
    leaves behind binds a key only to a class that is a member of a module
    it imported, is a subclass of [DebuggerBase] and reports that key as
    its option name. *)
Theorem first_discovery_sound (src : Sources)
    (h : list (gmap string PyClass)) (c : option nat)
    (lg : list ScanEvent) :
  let p := mkProcess h None c lg in
  gpd_cached (_get_potential_debuggers src p).2 = Some (length h)
  ∧ sound src (length h) (_get_potential_debuggers src p).2.
Proof.
  intros p.
  destruct (_get_potential_debuggers_first src p eq_refl) as (Hg & _ & _).
  split; [exact Hg|].
  unfold _get_potential_debuggers, p. step.
  match goal with |- context [for_ _ _ ?q] =>
    pose proof (scan_sound src (length h) q) as Hscan;
    destruct (for_ (os_walk src) _ q) as [[e|[]] p'] eqn:Hrun
  end; simpl in *; apply Hscan;
    (exists ∅; split; [by apply list_lookup_middle|done]).
Qed.


(** ** The cache of a discovery that returns *)

Lemma for_first {A} (a : nat) (cls : A → list PyClass) (body : A → M unit)
    (l : list A) :
  (∀ x classes p, holds_first a classes p →
     kept_first a (classes ++ cls x) (body x p)) →
  ∀ classes p, holds_first a classes p →
    kept_first a (classes ++ (l ≫= cls)) (for_ l body p).
Proof.
  intros Hbody. induction l as [|x l IH]; intros classes p Hp.
  - simpl. by rewrite app_nil_r.
  - pose proof (Hbody x classes p Hp) as Hx.
    destruct (body x p) as [[e|[]] p'] eqn:Hbx.
    + by rewrite (for_cons_err _ _ _ _ _ _ Hbx).
    + rewrite (for_cons_ok _ _ _ _ _ Hbx).
      specialize (IH _ _ Hx). simpl. by rewrite app_assoc.
Qed.

Lemma register_first (a : nat) (c : PyClass) (classes : list PyClass)
    (p : Process) :
  holds_first a classes p →
  kept_first a (classes ++ [c]) (register a c p).
Proof.
  unfold kept_first, holds_first, first_bindings. intros Hd.
  rewrite foldl_app. simpl. unfold register.
  destruct (is_debugger c); [|done].
  destruct (get_option_name c) as [key|]; [|done].
  step. rewrite Hd; simpl.
  destruct (_ !! key) as [c0|] eqn:Hc0.
  - by case_bool_decide.
  - simpl. apply list_lookup_insert_eq. by eapply lookup_lt_Some.
Qed.

Lemma bind_singleton {A} (l : list A) : l ≫= (λ x, [x]) = l.
Proof. induction l as [|x l IH]; [done|]. simpl. by f_equal. Qed.

Lemma scan_module_first (src : Sources) (a : nat) (dir_ m : string)
    (classes : list PyClass) (p : Process) :
  holds_first a classes p →
  kept_first a (classes ++ match load_module src dir_ m with
                           | inr members => members
                           | inl _ => []
                           end)
             (scan_module src a dir_ m p).
Proof.
  intros Hp. unfold scan_module. step.
  match goal with |- context [mkProcess ?h ?g ?c ?l] =>
    assert (holds_first a classes (mkProcess h g c l)) as Hq by exact Hp;
    generalize dependent (mkProcess h g c l); intros q Hq
  end.
  destruct (load_module src dir_ m) as [e|members].
  - destruct e; simpl; try done. by rewrite app_nil_r.
  - pose proof (for_first a (λ c, [c]) (register a) members
                  (λ c cs p' Hp', register_first a c cs p' Hp')
                  classes q Hq) as Hfor.
    by rewrite bind_singleton in Hfor.
Qed.

(** X13.  When a first discovery returns, its cache binds every key to
    the first backend class that the scan met under this key: a later
    class with the same key and class name is not registered. *)
Theorem first_discovery_cache (src : Sources)
    (h : list (gmap string PyClass)) (c : option nat)
    (lg : list ScanEvent) (a : nat) (p' : Process) :
  _get_potential_debuggers src (mkProcess h None c lg) = (inr a, p') →
  a = length h ∧ heap p' !! a = Some (first_bindings (all_classes src)).
Proof.
  unfold _get_potential_debuggers. step.
  match goal with |- context [for_ _ _ ?q] =>
    pose proof (for_first (length h)
      (λ '(dir_, files), m ← potential_modules files;
         match load_module src dir_ m with
         | inr members => members
         | inl _ => []
         end)
      (λ '(dir_, files),
         for_ (potential_modules files) (scan_module src (length h) dir_))
      (os_walk src)) as Hwalk;
    match type of Hwalk with ?P → _ => assert P as Hbody end;
    [|specialize (Hwalk Hbody [] q);
      destruct (for_ (os_walk src) _ q) as [[e|[]] q'] eqn:Hrun]
  end.
  - intros [dir_ files] classes q0 Hq0.
    apply (for_first (length h)
             (λ m, match load_module src dir_ m with
                   | inr members => members
                   | inl _ => []
                   end)); [|done].
    intros m classes' q1 Hq1. by apply scan_module_first.
  - done.
  - simpl. intros [= <- <-]. split; [done|]. apply Hwalk.
    unfold holds_first. simpl. by apply list_lookup_middle.
Qed.

(** ** Loading a backend *)

(** X14.  Once discovery has returned, [load] gives back exactly what
    calling the class registered under the key gives back or raises, and
    raises [KeyError] for a key that is not registered; the process stays
    as discovery left it.  An exception of discovery leaves [load] as it
    is. *)
Theorem load_outcome (src : Sources) (context : Context) (key : string)
    (step_collection : option DextIR.t) (p : Process) :
  (∀ a p' d,
     potential_debuggers src p = (inr a, p') →
     heap p' !! a = Some d →
     load src context key step_collection p
     = (match d !! key with
        | Some c => construct c context step_collection
        | None => inl (KeyError key)
        end, p'))
  ∧ (∀ e p',
       potential_debuggers src p = (inl e, p') →
       load src context key step_collection p = (inl e, p')).
Proof.
  split.
  - intros a p' d Hpd Hd. unfold load.
    rewrite (bind_inr _ _ _ _ _ Hpd). step. rewrite Hd; simpl.
    by destruct (d !! key).
  - intros e p' Hpd. unfold load. by rewrite (bind_inl _ _ _ _ _ Hpd).
Qed.

(** ** The listing *)

Lemma splitlines_go_nil (cur s : string) :
  splitlines_go cur s = [] → cur = "" ∧ s = "".
Proof.
  revert cur. induction s as [|c s IH]; intros cur; simpl.
  - by case_bool_decide.
  - destruct (Ascii.eqb c "013").
    + repeat case_match; done.
    + destruct (is_linebreak c); [done|].
      intros Hnil. apply IH in Hnil as [Hcur _].
      by destruct cur.
Qed.

Lemma splitlines_nil (s : string) : splitlines s = [] ↔ s = "".
Proof.
  split; [|by intros ->].
  intros Hnil. by apply splitlines_go_nil in Hnil as [_ ->].
Qed.

Lemma populate_snapshots (src : Sources) (context : Context)
    (p p' : Process) (a : nat) (d : gmap string PyClass) :
  potential_debuggers src p = (inr a, p') →
  heap p' !! a = Some d →
  Listing.constructible context d →
  ∃ entries,
    _populate_debugger_cache src context p = (inr entries, p')
    ∧ Forall2 (λ key e, ∃ c debugger,
                 d !! key = Some c
                 ∧ construct c context None = inr debugger
                 ∧ e = snapshot key debugger) (sorted (keys d)) entries.
Proof.
  intros Hpd Hd Hok.
  pose proof (potential_debuggers_sets _ _ _ _ Hpd) as Hc.
  destruct (sorted_keys d) as [Hperm _].
  destruct (mapM_Forall2
              (λ key, debugger ← load src context key None;
                      mret (snapshot key debugger))
              (λ key e, ∃ c debugger,
                 d !! key = Some c
                 ∧ construct c context None = inr debugger
                 ∧ e = snapshot key debugger)
              (sorted (keys d)) p') as (entries & Hrun & Hall).
  { apply Forall_forall. intros key Hkey.
    rewrite Hperm in Hkey. apply elem_of_keys in Hkey as [c Hkey].
    destruct (Hok key c Hkey) as [debugger Hdebugger].
    exists (snapshot key debugger). split; [|by exists c, debugger].
    erewrite bind_inr; [done|].
    erewrite load_found by done. by rewrite Hdebugger. }
  exists entries. split; [|done].
  unfold _populate_debugger_cache.
  rewrite (bind_inr _ _ _ _ _ Hpd).
  erewrite bind_inr; [exact Hrun|]. step. by rewrite Hd.
Qed.

Lemma list_entry_snapshot (verbose : bool) (w1 w2 : nat) (key : string)
    (debugger : DebuggerBase) (p : Process) :
  if Listing.blank debugger
  then list_entry verbose w1 w2 (snapshot key debugger) p
       = (inl IndexError, p)
  else ∃ msg, list_entry verbose w1 w2 (snapshot key debugger) p
              = (inr msg, p).
Proof.
  unfold Listing.blank, snapshot, list_entry.
  destruct (is_available debugger); simpl.
  - destruct (version debugger) as [v|]; simpl.
    + case_bool_decide as Hv.
      * injection Hv as ->. done.
      * destruct (splitlines v) as [|l ls] eqn:Hl.
        { apply splitlines_nil in Hl. by subst. }
        step. destruct verbose; [|by eexists].
        destruct ls; by eexists.
    + step. destruct verbose; by eexists.
  - destruct (loading_error debugger) as [v|]; simpl.
    + case_bool_decide as Hv.
      * injection Hv as ->. done.
      * destruct (splitlines v) as [|l ls] eqn:Hl.
        { apply splitlines_nil in Hl. by subst. }
        step. destruct verbose; [|by eexists].
        destruct (loading_error_trace debugger) as [[|? ?]|]; by eexists.
    + step. destruct verbose; [|by eexists].
      destruct (loading_error_trace debugger) as [[|? ?]|]; by eexists.
Qed.


Lemma max_nonempty (l : list nat) : l ≠ [] → ∃ m, max_ l = inr m.
Proof. destruct l; [done|]. by eexists. Qed.

(** X15.  When discovery has found no backend at all, the snapshot is the
    empty list and the listing raises [ValueError]: the width of a column
    is the maximum over no entry. *)
Theorem list_of_nothing (src : Sources) (context : Context)
    (p p' : Process) (a : nat) :
  potential_debuggers src p = (inr a, p') →
  heap p' !! a = Some ∅ →
  _populate_debugger_cache src context p = (inr [], p')
  ∧ list_ src context p = (inl ValueError, p').
Proof.
  intros Hpd Hd.
  assert (_populate_debugger_cache src context p = (inr [], p')) as Hpop.
  { unfold _populate_debugger_cache.
    rewrite (bind_inr _ _ _ _ _ Hpd).
    erewrite bind_inr; [|step; by rewrite Hd].
    unfold keys. by rewrite map_to_list_empty. }
  split; [done|].
  unfold list_. by rewrite (bind_inr _ _ _ _ _ Hpop).
Qed.

(** X16.  With at least one backend discovered and every backend
    constructible: the listing raises [IndexError] when some backend has
    nothing to show (an available one with an empty version string, an
    unavailable one with an empty error message); otherwise it returns a
    text of one message per discovered key, the messages separated by a
    line feed, after one line feed and before two. *)
Theorem list_outcome (src : Sources) (context : Context)
    (p p' : Process) (a : nat) (d : gmap string PyClass) :
  potential_debuggers src p = (inr a, p') →
  heap p' !! a = Some d →
  Listing.constructible context d →
  d ≠ ∅ →
  ((∃ key c debugger,
      d !! key = Some c ∧ construct c context None = inr debugger
      ∧ Listing.blank debugger = true) →
   list_ src context p = (inl IndexError, p'))
  ∧ ((∀ key c debugger,
        d !! key = Some c → construct c context None = inr debugger →
        Listing.blank debugger = false) →
     ∃ msgs,
       list_ src context p
       = (inr (newline +:+ join newline msgs +:+ newline +:+ newline), p')
       ∧ length msgs = size d).
Proof.
  intros Hpd Hd Hok Hne.
  destruct (populate_snapshots _ _ _ _ _ _ Hpd Hd Hok)
    as (entries & Hpop & Hall).
  destruct (sorted_keys d) as [Hperm _].
  assert (length entries = size d) as Hlen.
  { rewrite <- (Forall2_length _ _ _ Hall), Hperm.
    unfold keys. by rewrite length_fmap, length_map_to_list. }
  assert (entries ≠ []) as Hentries.
  { intros ->. simpl in Hlen. symmetry in Hlen.
    by apply map_size_empty_iff in Hlen. }
  destruct (max_nonempty ((λ e, String.length (option_name e)) <$> entries))
    as [w1 Hw1]; [by destruct entries|].
  destruct (max_nonempty ((λ e, String.length (full_name e)) <$> entries))
    as [w2 Hw2]; [by destruct entries|].
  assert (list_ src context p
          = (msgs ← mapM (list_entry (opt_verbose (options context)) w1 w2)
                          entries;
             mret (newline +:+ join newline msgs +:+ newline +:+ newline))
              p') as Hlist.
  { unfold list_. rewrite (bind_inr _ _ _ _ _ Hpop).
    rewrite Hw1, Hw2. done. }
  assert (∀ e, e ∈ entries → ∃ key c debugger,
            d !! key = Some c ∧ construct c context None = inr debugger
            ∧ e = snapshot key debugger) as Hentry.
  { intros e He. apply list_elem_of_lookup in He as [i Hi].
    destruct (Forall2_lookup_r _ _ _ _ _ Hall Hi) as (key & _ & Hkey).
    by exists key. }
  split.
  - intros (key & c & debugger & Hkey & Hc & Hblank).
    destruct (mapM_stops (list_entry (opt_verbose (options context)) w1 w2)
                entries p') as (e & err & He & Herr & Hrun).
    { intros e He.
      destruct (Hentry e He) as (key' & c' & debugger' & _ & _ & ->).
      pose proof (list_entry_snapshot (opt_verbose (options context)) w1 w2
                    key' debugger' p') as Hsnap.
      destruct (Listing.blank debugger'); [by rewrite Hsnap|].
      destruct Hsnap as [msg ->]. done. }
    { exists (snapshot key debugger), IndexError. split.
      - assert (key ∈ sorted (keys d)) as Hin.
        { rewrite Hperm. apply elem_of_keys. by eexists. }
        apply list_elem_of_lookup in Hin as [i Hi].
        destruct (Forall2_lookup_l _ _ _ _ _ Hall Hi)
          as (e & He & c' & debugger' & Hc' & Hd' & ->).
        assert (c' = c) as -> by congruence.
        assert (debugger' = debugger) as -> by congruence.
        apply list_elem_of_lookup. by exists i.
      - pose proof (list_entry_snapshot (opt_verbose (options context))
                      w1 w2 key debugger p') as Hsnap.
        rewrite Hblank in Hsnap. by rewrite Hsnap. }
    destruct (Hentry e He) as (key' & c' & debugger' & _ & _ & ->).
    pose proof (list_entry_snapshot (opt_verbose (options context)) w1 w2
                  key' debugger' p') as Hsnap.
    destruct (Listing.blank debugger').
    + rewrite Hsnap in Herr. injection Herr as <-.
      rewrite Hlist. by rewrite (bind_inl _ _ _ _ _ Hrun).
    + destruct Hsnap as [msg Hmsg]. by rewrite Hmsg in Herr.
  - intros Hshown.
    destruct (mapM_Forall2 (list_entry (opt_verbose (options context)) w1 w2)
                (λ _ _, True) entries p') as (msgs & Hrun & Hmsgs).
    { apply Forall_forall. intros e He.
      destruct (Hentry e He) as (key' & c' & debugger' & Hk & Hc & ->).
      pose proof (list_entry_snapshot (opt_verbose (options context)) w1 w2
                    key' debugger' p') as Hsnap.
      rewrite (Hshown _ _ _ Hk Hc) in Hsnap.
      destruct Hsnap as [msg Hmsg]. by exists msg. }
    exists msgs. split.
    + rewrite Hlist. by rewrite (bind_inr _ _ _ _ _ Hrun).
    + by rewrite <- (Forall2_length _ _ _ Hmsgs).
Qed.


(** ** The columns of the listing *)














End RegistryMore.

(** * More on the coordinator *)

Section CoordinatorMore.
Import Py Debuggers Run.
Open Scope list_scope.

(** ** Grouping the commands *)

Lemma od_append_fresh (key : string) (c : DextIR.CommandIR)
    (od : DextIR.Commands) :
  key ∉ od.*1 → od_append key c od = od.
Proof.
  unfold od_append. induction od as [|[k l] od IH]; intros Hkey; [done|].
  rewrite fmap_cons in Hkey. apply not_elem_of_cons in Hkey as [Hne Hkey].
  rewrite fmap_cons, IH by done. simpl in *.
  by rewrite bool_decide_eq_false_2 by done.
Qed.

Lemma od_append_last (key : string) (c : DextIR.CommandIR)
    (od : DextIR.Commands) (l : list DextIR.CommandIR) :
  key ∉ od.*1 →
  od_append key c (od ++ [(key, l)]) = od ++ [(key, l ++ [c])].
Proof.
  intros Hkey. pose proof (od_append_fresh key c od Hkey) as Hod.
  unfold od_append in *. rewrite fmap_app, Hod. simpl.
  by rewrite bool_decide_eq_true_2.
Qed.

Lemma add_commands_last (key : string) (od : DextIR.Commands)
    (l : list DextIR.CommandIR) (cmds : list Command) :
  key ∉ od.*1 →
  foldl (add_command key) (od ++ [(key, l)]) cmds
  = od ++ [(key, l ++ (command_ir <$> cmds))].
Proof.
  intros Hkey. revert l. induction cmds as [|c cmds IH]; intros l.
  - simpl. by rewrite app_nil_r.
  - simpl. unfold add_command at 2. unfold od_contains.
    rewrite bool_decide_eq_true_2.
    + rewrite od_append_last by done. rewrite IH.
      by rewrite <- app_assoc.
    + rewrite fmap_app. apply elem_of_app. right. simpl. set_solver.
Qed.

Lemma add_commands_new (key : string) (od : DextIR.Commands)
    (cmds : list Command) :
  key ∉ od.*1 →
  foldl (add_command key) od cmds
  = od ++ match cmds with
          | [] => []
          | _ :: _ => [(key, command_ir <$> cmds)]
          end.
Proof.
  intros Hkey. destruct cmds as [|c cmds]; simpl.
  - by rewrite app_nil_r.
  - unfold add_command at 2. unfold od_contains.
    rewrite bool_decide_eq_false_2 by done.
    rewrite od_append_last by done. by rewrite add_commands_last.
Qed.

Lemma grouped_keys (commands : list (string * list Command)) (key : string) :
  key ∈ (grouped commands).*1 → key ∈ commands.*1.
Proof.
  unfold grouped. induction commands as [|[ty cmds] commands IH]; [done|].
  simpl. destruct cmds as [|c cmds]; simpl.
  - intros Hkey. right. by apply IH.
  - intros [->|Hkey]%elem_of_cons; [by left|]. right. by apply IH.
Qed.

Lemma group_commands (od : DextIR.Commands)
    (commands : list (string * list Command)) :
  NoDup commands.*1 →
  (∀ key, key ∈ od.*1 → key ∉ commands.*1) →
  foldl (λ command_infos '(command_type, cmds),
           foldl (add_command command_type) command_infos cmds)
        od commands
  = od ++ grouped commands.
Proof.
  revert od. induction commands as [|[ty cmds] commands IH];
    intros od Hnodup Hod.
  - simpl. by rewrite app_nil_r.
  - rewrite fmap_cons in Hnodup. apply NoDup_cons in Hnodup as [Hty Hnodup].
    simpl. rewrite add_commands_new.
    2: { intros Hin. apply (Hod _ Hin). rewrite fmap_cons. by left. }
    rewrite IH; [|done|].
    + rewrite <- app_assoc. f_equal. unfold grouped. simpl.
      by destruct cmds.
    + intros key Hkey Hin. rewrite fmap_app in Hkey.
      apply elem_of_app in Hkey as [Hkey|Hkey].
      * apply (Hod _ Hkey). rewrite fmap_cons. by right.
      * destruct cmds; simpl in Hkey; [by apply not_elem_of_nil in Hkey|].
        apply list_elem_of_singleton in Hkey as ->. done.
Qed.

(** X18.  The commands that the parser reports per command type (a
    dictionary: no type twice) are stored type by type in the order of the
    parser, every type with its commands in their order and without
    column; a type without commands gets no entry. *)
Theorem _get_command_infos_grouped (w : World) (context : Context)
    (commands : list (string * list Command)) :
  find_all_commands w (source_files (options context)) = inr commands →
  NoDup commands.*1 →
  _get_command_infos w context = inr (grouped commands).
Proof.
  intros Hfind Hnodup. unfold _get_command_infos. rewrite Hfind. f_equal.
  apply (group_commands [] commands Hnodup).
  intros key Hkey. by apply not_elem_of_nil in Hkey.
Qed.

(** ** The outcomes of a run *)


Lemma entry_point_missing (w : World) :
  isfile w (entry_point w) = false
  ↔ isfile w (sys_argv0 w) = false
    ∧ isfile w (path_join w [get_root_directory w; ".."; sys_argv0 w])
      = false.
Proof.
  unfold entry_point.
  destruct (isfile w (sys_argv0 w)) eqn:Hfile.
  - rewrite Hfile. split; [done|]. by intros [? _].
  - split; [done|]. by intros [_ ?].
Qed.

Lemma run_parsed (w : World) (context : Context)
    (command_infos : DextIR.Commands) :
  _get_command_infos w context = inr command_infos →
  get_debugger_steps w context
  = if negb (isfile w (entry_point w)) then
      (inl (AssertionError []), written w context command_infos)
    else if bool_decide (check_call w (child_args w context) ≠ 0) then
      (inl (DebuggerException_from
              (CalledProcessError (check_call w (child_args w context)))),
       written w context command_infos ++ spawned w context)
    else
      (inr (importDextIR w (read_after_run w (temp_name w 0))),
       written w context command_infos ++ spawned w context
       ++ [ReadFile (temp_name w 0)]).
Proof.
  intros Hinfos. unfold get_debugger_steps. rewrite Hinfos. cbv zeta.
  unfold written, spawned, child_args.
  change (if isfile w (sys_argv0 w) then sys_argv0 w
          else path_join w [get_root_directory w; ".."; sys_argv0 w])
    with (entry_point w).
  destruct (isfile w (entry_point w)); [|reflexivity].
  cbn [negb]. case_bool_decide; [reflexivity|].
  by rewrite <- app_assoc.
Qed.

(** X19.  When the child process exits with a status other than zero, the
    run ends with a [DebuggerException] that wraps the
    [CalledProcessError] of that status.  The child was started once, the
    third temporary file is removed, the result file is not read, and the
    two files written for the child are left behind. *)
Theorem child_failure (w : World) (context : Context)
    (command_infos : DextIR.Commands) :
  _get_command_infos w context = inr command_infos →
  isfile w (entry_point w) = true →
  check_call w (child_args w context) ≠ 0 →
  get_debugger_steps w context
  = (inl (DebuggerException_from
            (CalledProcessError (check_call w (child_args w context)))),
     written w context command_infos ++ spawned w context).
Proof.
  intros Hinfos Hentry Hcode. rewrite (run_parsed _ _ _ Hinfos), Hentry.
  simpl. by rewrite bool_decide_eq_true_2.
Qed.

(** X20.  When the child process exits with status zero, the run returns
    the trace read back from the first temporary file after the child has
    run: whatever the child left there, not the trace the parent wrote. *)
Theorem child_success (w : World) (context : Context)
    (command_infos : DextIR.Commands) :
  _get_command_infos w context = inr command_infos →
  isfile w (entry_point w) = true →
  check_call w (child_args w context) = 0 →
  get_debugger_steps w context
  = (inr (importDextIR w (read_after_run w (temp_name w 0))),
     written w context command_infos ++ spawned w context
     ++ [ReadFile (temp_name w 0)]).
Proof.
  intros Hinfos Hentry Hcode. rewrite (run_parsed _ _ _ Hinfos), Hentry.
  simpl. by rewrite bool_decide_eq_false_2 by (by intros ?).
Qed.

(** X21.  When neither [sys.argv[0]] nor its path under the root
    directory is a file, the run fails its assertion: no child is started,
    and the two temporary files written before the check are left
    behind. *)
Theorem entry_point_not_found (w : World) (context : Context)
    (command_infos : DextIR.Commands) :
  _get_command_infos w context = inr command_infos →
  isfile w (sys_argv0 w) = false →
  isfile w (path_join w [get_root_directory w; ".."; sys_argv0 w]) = false →
  get_debugger_steps w context
  = (inl (AssertionError []), written w context command_infos).
Proof.
  intros Hinfos Hargv Hroot. rewrite (run_parsed _ _ _ Hinfos).
  by rewrite (proj2 (entry_point_missing w) (conj Hargv Hroot)).
Qed.

(** X22.  An exception of the command parser other than a parse failure
    leaves the run as it is, before anything is written or started. *)
Theorem parser_exception_passes (w : World) (context : Context) (e : exn) :
  find_all_commands w (source_files (options context)) = inl e →
  (∀ failure, e ≠ CommandParseError_ failure) →
  get_debugger_steps w context = (inl e, []).
Proof.
  intros Hfind Hother. unfold get_debugger_steps, _get_command_infos.
  rewrite Hfind. destruct e; try done. by destruct (Hother e).
Qed.


End CoordinatorMore.

(** * The options of the debugger tools *)

Section ToolOptionsFacts.
Import ToolOptions.
Open Scope list_scope.

Ltac go :=
  cbv beta iota zeta delta
    [mbind T_bind mret T_ret raise options warn set_lldb_executable set_arch
     set_show_debugger get_debugger _warn_meaningless_option];
  simpl.

(** X24.  When the handling of the options returns, the three options
    are set: an option given on the command line keeps its value (the
    executable as an absolute path), an option not given takes its
    default; the other attributes are as they were. *)
Theorem handled_options (host : Host) (defaults : Defaults)
    (o o' : DebuggerOptions) (ws ws' : list Warning) :
  handle_debugger_tool_options host defaults (o, ws) = (inr (), (o', ws')) →
  lldb_executable o'
  = Some (match lldb_executable o with
          | Some exe => abspath host exe
          | None => default_lldb_executable defaults
          end)
  ∧ arch o' = Some (default (default_arch defaults) (arch o))
  ∧ show_debugger o'
    = Some (default (default_show_debugger defaults) (show_debugger o))
  ∧ debugger o' = debugger o
  ∧ list_debuggers o' = list_debuggers o.
Proof.
  unfold handle_debugger_tool_options, handle_debugger_tool_options1.
  destruct o as [exe dbg ar sh ld]. go.
  destruct exe as [exe|], dbg as [d|], ar as [a|], sh as [s|], ld; go;
    repeat (case_bool_decide; go);
    repeat (destruct (isfile host _); go);
    repeat (case_bool_decide; go);
    intros [=]; by subst.
Qed.

(** X25.  For options that name a debugger, the handling raises exactly
    when an executable was given whose absolute path is not a file: the
    error is a [ToolArgumentError] that quotes this path, the executable
    has already been replaced by the path, and the architecture and the
    visibility of the debugger have not been touched. *)
Theorem handling_fails (host : Host) (defaults : Defaults)
    (o : DebuggerOptions) (ws : list Warning) (d : string) :
  debugger o = Some d →
  match handle_debugger_tool_options host defaults (o, ws) with
  | (inl err, (o', _)) =>
      ∃ exe, lldb_executable o = Some exe
        ∧ isfile host (abspath host exe) = false
        ∧ err = ToolArgumentError
                  ("<d>could not find</> <r>" +:+ quote
                   +:+ abspath host exe +:+ quote +:+ "</>")
        ∧ o' = mkDebuggerOptions (Some (abspath host exe)) (debugger o)
                 (arch o) (show_debugger o) (list_debuggers o)
  | (inr _, _) =>
      ∀ exe, lldb_executable o = Some exe →
             isfile host (abspath host exe) = true
  end.
Proof.
  unfold handle_debugger_tool_options, handle_debugger_tool_options1.
  destruct o as [exe dbg ar sh ld]. simpl. intros ->. go.
  destruct exe as [exe|]; go.
  2: { destruct ar as [a|], sh as [s|], ld; go;
         repeat (case_bool_decide; go); done. }
  destruct (isfile host (abspath host exe)) eqn:Hfile.
  - destruct ar as [a|], sh as [s|], ld; go;
      repeat (case_bool_decide; go); try rewrite Hfile; go;
      repeat (case_bool_decide; go); by intros ? [= <-].
  - destruct ld; go; repeat (case_bool_decide; go); rewrite ?Hfile; go;
      by exists exe.
Qed.

(** X26.  For options that name a debugger, a handling that returns has
    added exactly the warnings for the options that were given and that
    this debugger does not use: the executable and the architecture for a
    debugger other than [lldb], the visibility for [lldb]; and none at all
    when the debuggers are only being listed. *)
Theorem handling_warns (host : Host) (defaults : Defaults)
    (o o' : DebuggerOptions) (ws ws' : list Warning) (d : string) :
  debugger o = Some d →
  handle_debugger_tool_options host defaults (o, ws) = (inr (), (o', ws')) →
  ws' = ws ++ expected_warnings o d.
Proof.
  unfold handle_debugger_tool_options, handle_debugger_tool_options1,
    expected_warnings.
  destruct o as [exe dbg ar sh ld]. simpl. intros ->. go.
  rewrite !bool_decide_and.
  destruct (decide (d = "lldb")) as [->|Hd].
  - destruct exe as [exe|], ar as [a|], sh as [s|], ld; go;
      repeat (destruct (isfile host _); go);
      intros [=]; subst; rewrite ?app_nil_r; done.
  - destruct exe as [exe|], ar as [a|], sh as [s|], ld;
      repeat first
        [ rewrite !(bool_decide_eq_true_2 (d ≠ "lldb")) by done
        | rewrite !(bool_decide_eq_false_2 (d = "lldb")) by done
        | destruct (isfile host _)
        | progress go ];
      intros [=]; subst; rewrite ?app_nil_r, <- ?app_assoc; done.
Qed.

(** X27.  [handle_debugger_tool_options1] does not need the options to
    name a debugger: without the attribute it never warns and never fails
    for the missing attribute.  [handle_debugger_tool_options] does need
    it as soon as an architecture is given. *)
Theorem handling_without_debugger (host : Host) (defaults : Defaults)
    (o : DebuggerOptions) (ws : list Warning) :
  debugger o = None →
  (∃ r o', handle_debugger_tool_options1 host defaults (o, ws)
           = (r, (o', ws))
           ∧ ∀ attr, r ≠ inl (NoAttribute attr))
  ∧ (is_Some (arch o) →
     (∀ exe, lldb_executable o = Some exe →
             isfile host (abspath host exe) = true) →
     (handle_debugger_tool_options host defaults (o, ws)).1
     = inl (NoAttribute "debugger")).
Proof.
  unfold handle_debugger_tool_options, handle_debugger_tool_options1.
  destruct o as [exe dbg ar sh ld]. simpl. intros ->. go. split.
  - destruct exe as [exe|]; go; [|by eexists _, _].
    destruct (isfile host (abspath host exe)); by eexists _, _.
  - intros [a ->] Hfile. destruct exe as [exe|]; go; [|done].
    by rewrite (Hfile exe eq_refl).
Qed.

End ToolOptionsFacts.

(** * The theorems at concrete inputs *)

Section Witnesses.
Import Py Debuggers Registry Examples MoreExamples.
Import DextIR Rendering.
Open Scope list_scope.

Lemma new_step_kind_inv_witness :
  ∃ prev,
    last [stop (Some "main") "file.c" 10] = Some prev
    ∧ is_Some (Some "main")
    ∧ current_function prev = Some "main"
    ∧ (@loc_eq spec_order (current_location prev)
         (current_location (stop (Some "main") "file.c" 11)) = false
       ∧ @loc_gt spec_order (current_location prev)
           (current_location (stop (Some "main") "file.c" 11)) = false
       ∧ @loc_lt spec_order (current_location prev)
           (current_location (stop (Some "main") "file.c" 11)) = true).
Proof.
  exact (@new_step_kind_inv spec_order
           (set_steps [stop (Some "main") "file.c" 10]
                      (init "v" "a.out" ["file.c"] None None None))
           (stop (Some "main") "file.c" 11) FORWARD eq_refl eq_refl).
Defined.

Lemma built_trace_consistent_witness :
  let built := steps scenario_trace in
  current_function <$> built = current_function <$> scenario_steps
  ∧ current_location <$> built = current_location <$> scenario_steps
  ∧ (∀ s, built !! 0%nat = Some s → consistent_head s)
  ∧ (∀ i p s, built !! i = Some p → built !! S i = Some s →
       consistent_pair p s).
Proof.
  apply (@built_trace_consistent spec_order
           (init "1.0" "a.out" ["file.c"] None None None) scenario_steps).
  repeat constructor.
Defined.

Lemma new_step_obj_fresh_witness :
  ∃ objects' refs',
    @StepObjects.new_step_obj spec_order
      (init "v" "a.out" ["file.c"] None None None)
      [set_step_kind FUNC (stop (Some "main") "file.c" 10);
       stop (Some "main") "file.c" 11] [0%nat] 1%nat
    = Some (objects', refs')
    ∧ StepObjects.deref objects' refs'
      = [set_step_kind FUNC (stop (Some "main") "file.c" 10);
         set_step_kind FORWARD (stop (Some "main") "file.c" 11)].
Proof.
  destruct (@new_step_obj_fresh spec_order
              (init "v" "a.out" ["file.c"] None None None)
              [set_step_kind FUNC (stop (Some "main") "file.c" 10);
               stop (Some "main") "file.c" 11] [0%nat] 1%nat
              (stop (Some "main") "file.c" 11) eq_refl)
    as (objects' & refs' & Hrun & Hderef & _).
  - intros Hin. apply list_elem_of_singleton in Hin. discriminate.
  - exists objects', refs'. split; [exact Hrun|]. exact Hderef.
Defined.

Lemma new_step_obj_again_witness :
  ∃ objects',
    @StepObjects.new_step_obj spec_order
      (init "v" "a.out" ["file.c"] None None None)
      [set_step_kind FUNC (stop (Some "main") "file.c" 10)] [0%nat] 0%nat
    = Some (objects', [0%nat; 0%nat])
    ∧ StepObjects.deref
        [set_step_kind FUNC (stop (Some "main") "file.c" 10)] [0%nat]
      = [set_step_kind FUNC (stop (Some "main") "file.c" 10)]
    ∧ StepObjects.deref objects' [0%nat; 0%nat]
      = [set_step_kind SAME (stop (Some "main") "file.c" 10);
         set_step_kind SAME (stop (Some "main") "file.c" 10)].
Proof.
  apply (@new_step_obj_again spec_order
           (init "v" "a.out" ["file.c"] None None None)
           [set_step_kind FUNC (stop (Some "main") "file.c" 10)] [] 0%nat
           (set_step_kind FUNC (stop (Some "main") "file.c" 10))).
  - reflexivity.
  - apply not_elem_of_nil.
  - by eexists.
  - reflexivity.
Defined.

Lemma step_color_witness :
  colored 0 (steps scenario_trace) !! 4%nat
  = Some ("b"%char, set_step_kind FUNC (stop (Some "helper") "file.c" 20)).
Proof.
  exact (step_color scenario_trace 4
           (set_step_kind FUNC (stop (Some "helper") "file.c" 20)) eq_refl).
Defined.

Lemma run_boundary_witness :
  "g"%char = "b"%char
  ↔ is_func_kind
      (step_kind (set_step_kind FUNC (stop (Some "helper") "file.c" 20)))
    = false.
Proof.
  exact (run_boundary scenario_trace 3 "g" "b"
           (set_step_kind BACKWARD (stop (Some "main") "file.c" 9))
           (set_step_kind FUNC (stop (Some "helper") "file.c" 20))
           eq_refl eq_refl).
Defined.

Lemma built_trace_colors_witness :
  "g"%char ≠ "b"%char
  ↔ is_Some (Some "main") ∧ is_Some (Some "helper")
    ∧ Some "main" ≠ Some "helper".
Proof.
  apply (@built_trace_colors spec_order
           (init "1.0" "a.out" ["file.c"] None None None) scenario_steps 3
           "g" "b"
           (set_step_kind BACKWARD (stop (Some "main") "file.c" 9))
           (set_step_kind FUNC (stop (Some "helper") "file.c" 20))).
  - repeat constructor.
  - reflexivity.
  - reflexivity.
Defined.

Lemma potential_modules_sound_witness :
  startswith "LLDB" "__" = false
  ∧ ∃ f, f ∈ ["__init__.py"; "LLDB.py"; "LLDB.pyc"] ∧ "LLDB" = splitext_root f
         ∧ endswith f ".py" = true ∧ startswith f "__" = false.
Proof.
  apply (potential_modules_sound ["__init__.py"; "LLDB.py"; "LLDB.pyc"]).
  vm_compute. apply list_elem_of_here.
Defined.

Lemma list_of_nothing_witness :
  _populate_debugger_cache (package []) ex_context fresh
  = (inr [], (potential_debuggers (package []) fresh).2)
  ∧ list_ (package []) ex_context fresh
    = (inl ValueError, (potential_debuggers (package []) fresh).2).
Proof.
  apply (list_of_nothing (package []) ex_context fresh
           (potential_debuggers (package []) fresh).2 0);
    vm_compute; reflexivity.
Defined.

Lemma first_discovery_cache_witness :
  0%nat = @length (gmap string PyClass) []
  ∧ heap (_get_potential_debuggers working_sources fresh).2 !! 0%nat
    = Some (Scan.first_bindings (Scan.all_classes working_sources)).
Proof.
  apply (first_discovery_cache working_sources [] None []).
  vm_compute. reflexivity.
Defined.


Lemma working_constructible :
  Listing.constructible ex_context
    (<["vs2015" := vs2015_class]> {["lldb" := lldb_class]}).
Proof.
  apply map_Forall_insert_2; [by eexists|].
  apply map_Forall_singleton. by eexists.
Qed.

Lemma working_shown (key : string) (c : PyClass) (debugger : DebuggerBase) :
  (<["vs2015" := vs2015_class]> {["lldb" := lldb_class]} : gmap string PyClass)
    !! key = Some c →
  construct c ex_context None = inr debugger →
  Listing.blank debugger = false.
Proof.
  intros Hk Hc.
  apply lookup_insert_Some in Hk as [[_ <-]|[_ Hk]].
  - injection Hc as <-. reflexivity.
  - apply lookup_singleton_Some in Hk as [_ <-].
    injection Hc as <-. reflexivity.
Qed.

Lemma list_outcome_witness :
  (∃ msgs,
     list_ working_sources ex_context fresh
     = (inr (newline +:+ join newline msgs +:+ newline +:+ newline),
        (potential_debuggers working_sources fresh).2)
     ∧ length msgs
       = size (<["vs2015" := vs2015_class]> {["lldb" := lldb_class]}
                 : gmap string PyClass))
  ∧ list_ silent_sources ex_context fresh
    = (inl IndexError, (potential_debuggers silent_sources fresh).2).
Proof.
  split.
  - refine (proj2 (list_outcome working_sources ex_context fresh
                     (potential_debuggers working_sources fresh).2 0
                     (<["vs2015" := vs2015_class]> {["lldb" := lldb_class]})
                     _ _ working_constructible _) working_shown).
    + vm_compute. reflexivity.
    + vm_compute. reflexivity.
    + apply insert_non_empty.
  - refine (proj1 (list_outcome silent_sources ex_context fresh
                     (potential_debuggers silent_sources fresh).2 0
                     (<["silent" := silent_class]> {["lldb" := lldb_class]})
                     _ _ _ _) _).
    + vm_compute. reflexivity.
    + vm_compute. reflexivity.
    + apply map_Forall_insert_2; [by eexists|].
      apply map_Forall_singleton. by eexists.
    + apply insert_non_empty.
    + exists "silent", silent_class,
        (mkDebugger "silent" true (Some "") None None).
      split; [apply lookup_insert_eq|]. split; reflexivity.
Defined.


(** ** The coordinator *)

Lemma _get_command_infos_grouped_witness :
  _get_command_infos (world ["dexter.py"] 0) ex_context
  = inr [("DexWatch",
          [DextIR.mkCommandIR (mkLocIR (Some "test.cpp") (Some 3) None)
                              "DexWatch('a')";
           DextIR.mkCommandIR (mkLocIR (Some "test.cpp") (Some 7) None)
                              "DexWatch('b')"])].
Proof.
  apply (_get_command_infos_grouped (world ["dexter.py"] 0) ex_context
           ex_commands eq_refl).
  apply NoDup_cons. split.
  - intros Hin. apply list_elem_of_singleton in Hin. discriminate.
  - apply NoDup_singleton.
Defined.

Lemma child_failure_witness :
  (get_debugger_steps (world ["dexter.py"] 2) ex_context).1
  = inl (DebuggerException_from (CalledProcessError 2)).
Proof.
  rewrite (child_failure (world ["dexter.py"] 2) ex_context
             (Run.grouped ex_commands));
    [reflexivity|reflexivity|reflexivity|discriminate].
Defined.

Lemma child_success_witness :
  get_debugger_steps (world ["dexter.py"] 0) ex_context
  = (inr (DextIR.init "1.0" "a.out" [] None None None),
     Run.written (world ["dexter.py"] 0) ex_context (Run.grouped ex_commands)
     ++ Run.spawned (world ["dexter.py"] 0) ex_context
     ++ [ReadFile "/tmp/dexter/tmp0"]).
Proof.
  apply (child_success (world ["dexter.py"] 0) ex_context
           (Run.grouped ex_commands)); reflexivity.
Defined.

Lemma entry_point_not_found_witness :
  get_debugger_steps (world [] 0) ex_context
  = (inl (AssertionError []),
     Run.written (world [] 0) ex_context (Run.grouped ex_commands)).
Proof.
  apply (entry_point_not_found (world [] 0) ex_context
           (Run.grouped ex_commands)); reflexivity.
Defined.

Lemma parser_exception_passes_witness :
  get_debugger_steps unreadable_world ex_context = (inl (Raised "IOError"), []).
Proof.
  apply (parser_exception_passes unreadable_world ex_context
           (Raised "IOError")); [reflexivity|discriminate].
Defined.

(** ** The options *)

Lemma handled_options_witness :
  ∃ o' ws',
    ToolOptions.handle_debugger_tool_options ex_host ex_defaults
      (ToolOptions.mkDebuggerOptions (Some "lldb-6") (Some "lldb") None
         (Some true) false, [])
    = (inr (), (o', ws'))
    ∧ ToolOptions.lldb_executable o' = Some "/cwd/lldb-6"
    ∧ ToolOptions.arch o' = Some "x86_64"
    ∧ ToolOptions.show_debugger o' = Some true
    ∧ ToolOptions.debugger o' = Some "lldb"
    ∧ ToolOptions.list_debuggers o' = false.
Proof.
  eexists _, _. split; [reflexivity|].
  exact (handled_options ex_host ex_defaults
           (ToolOptions.mkDebuggerOptions (Some "lldb-6") (Some "lldb") None
              (Some true) false) _ [] _ eq_refl).
Defined.

Lemma handling_fails_witness :
  ∃ exe, Some "lldb-7" = Some exe
    ∧ ToolOptions.isfile ex_host (ToolOptions.abspath ex_host exe) = false
    ∧ ToolOptions.ToolArgumentError
        ("<d>could not find</> <r>" +:+ ToolOptions.quote +:+ "/cwd/lldb-7"
         +:+ ToolOptions.quote +:+ "</>")
      = ToolOptions.ToolArgumentError
          ("<d>could not find</> <r>" +:+ ToolOptions.quote
           +:+ ToolOptions.abspath ex_host exe +:+ ToolOptions.quote
           +:+ "</>")
    ∧ ToolOptions.mkDebuggerOptions (Some "/cwd/lldb-7") (Some "lldb")
        (Some "arm") None false
      = ToolOptions.mkDebuggerOptions (Some (ToolOptions.abspath ex_host exe))
          (Some "lldb") (Some "arm") None false.
Proof.
  exact (handling_fails ex_host ex_defaults
           (ToolOptions.mkDebuggerOptions (Some "lldb-7") (Some "lldb")
              (Some "arm") None false) [] "lldb" eq_refl).
Defined.

Lemma handling_warns_witness :
  ∃ o',
    ToolOptions.handle_debugger_tool_options ex_host ex_defaults
      (ToolOptions.mkDebuggerOptions (Some "lldb-6") (Some "vs2015")
         (Some "arm") (Some true) false, [])
    = (inr (),
       (o', [(ToolOptions.meaningless "--lldb-executable",
              "--debugger=vs2015");
             (ToolOptions.meaningless "--arch", "--debugger=vs2015")])).
Proof.
  eexists.
  rewrite (handling_warns ex_host ex_defaults
             (ToolOptions.mkDebuggerOptions (Some "lldb-6") (Some "vs2015")
                (Some "arm") (Some true) false)
             (ToolOptions.mkDebuggerOptions (Some "/cwd/lldb-6")
                (Some "vs2015") (Some "arm") (Some true) false)
             []
             [(ToolOptions.meaningless "--lldb-executable",
               "--debugger=vs2015");
              (ToolOptions.meaningless "--arch", "--debugger=vs2015")]
             "vs2015" eq_refl eq_refl) at 1.
  reflexivity.
Defined.

Lemma handling_without_debugger_witness :
  (∃ r o',
     ToolOptions.handle_debugger_tool_options1 ex_host ex_defaults
       (ToolOptions.mkDebuggerOptions (Some "lldb-6") None (Some "arm") None
          false, [])
     = (r, (o', []))
     ∧ ∀ attr, r ≠ inl (ToolOptions.NoAttribute attr))
  ∧ (ToolOptions.handle_debugger_tool_options ex_host ex_defaults
       (ToolOptions.mkDebuggerOptions (Some "lldb-6") None (Some "arm") None
          false, [])).1
    = inl (ToolOptions.NoAttribute "debugger").
Proof.
  destruct (handling_without_debugger ex_host ex_defaults
              (ToolOptions.mkDebuggerOptions (Some "lldb-6") None (Some "arm")
                 None false) [] eq_refl) as [Hone Hall].
  split; [exact Hone|]. apply Hall; [by eexists|].
  intros exe [= <-]. reflexivity.
Defined.

End Witnesses.
